(** * Chess engine: board model, attack detector, move generator, executor

    A shallow embedding of the chess logic module (the file that exports
    [initialBoard], [isValidPosition], [isKingUnderAttack], [isCheck],
    [getPossibleMoves], [movePiece], [isCheckmate], ...).

    Modelling choices.

    - A board is a JavaScript array of eight row arrays holding
      [ChessPiece | null].  Reading [board[r][c]] at an integer column
      outside [0..7] yields [undefined]; writing [row[c] = p] at a negative
      column creates an own property of the row array, which later reads see
      and which [JSON.parse(JSON.stringify(board))] drops.  The board is
      therefore the finite map of its occupied cells, keyed by (row, column)
      over all of [Z]; [null] and [undefined] are both "no entry" (the code
      only ever tests cells for truthiness or through [?.]).
    - Dereferencing a row outside [0..7] raises a [TypeError] in the source.
      Every such access below is either guarded by [isValidPosition] or
      concerns the origin/destination row of a call; statements about those
      calls carry the in-range hypothesis on the rows they dereference.
    - The [while] loops of the sliding scans are not bounded by the code
      itself, so they take a [fuel] budget of iterations and return [None]
      when it is exhausted.  A call returns [v] when some fuel gives
      [Some v], and never returns when every fuel gives [None]. *)

From stdpp Require Import gmap list strings pretty.
From Stdlib Require Import ZArith Lia.

Open Scope Z_scope.

(** ** Data model *)

Inductive PieceType := pawn | rook | knight | bishop | queen | king.
Inductive PieceColor := white | black.

#[global] Instance PieceType_eq_dec : EqDecision PieceType.
Proof. solve_decision. Defined.
#[global] Instance PieceColor_eq_dec : EqDecision PieceColor.
Proof. solve_decision. Defined.

(** [hasMoved?: boolean]: [None] is the absent field. *)
Record ChessPiece := mkPiece {
  type : PieceType;
  color : PieceColor;
  hasMoved : option bool
}.

#[global] Instance ChessPiece_eq_dec : EqDecision ChessPiece.
Proof. solve_decision. Defined.

Record Position := mkPos { row : Z; col : Z }.

#[global] Instance Position_eq_dec : EqDecision Position.
Proof. solve_decision. Defined.

Abbreviation Board := (gmap (Z * Z) ChessPiece).

(** [!piece.hasMoved] *)
Definition notMoved (p : ChessPiece) : bool :=
  match hasMoved p with Some true => false | _ => true end.

Definition range8 : list Z := [0; 1; 2; 3; 4; 5; 6; 7].

(** The squares in the order of [for r in 0..7 { for c in 0..7 ... }]. *)
Definition squares : list (Z * Z) :=
  r ← range8; c ← range8; [(r, c)].

Definition onGrid (k : Z * Z) : Prop := (0 ≤ k.1 < 8) ∧ (0 ≤ k.2 < 8).

#[global] Instance onGrid_dec k : Decision (onGrid k).
Proof. unfold onGrid. apply _. Defined.

(** [JSON.parse(JSON.stringify(board))]: a fresh 8x8 array with the cells at
    indices 0..7 of each row; own properties at other keys are not
    serialised. *)
Definition jsonClone (b : Board) : Board :=
  filter (λ kv, onGrid kv.1) b.

(** [board[r][c] = v] where [v] is a piece, [null] or [undefined]. *)
Definition setCell (b : Board) (k : Z * Z) (v : option ChessPiece) : Board :=
  partial_alter (λ _, v) k b.

Definition place (k : Z * Z) (t : PieceType) (c : PieceColor) (m : option bool)
    (b : Board) : Board :=
  <[k := mkPiece t c m]> b.

Definition initialBoard : Board :=
  let pawns := foldr (λ i b,
      place (6, i) pawn white (Some false)
        (place (1, i) pawn black (Some false) b)) ∅ range8 in
  let rooks :=
      place (7, 7) rook white (Some false)
        (place (7, 0) rook white (Some false)
          (place (0, 7) rook black (Some false)
            (place (0, 0) rook black (Some false) pawns))) in
  let knights :=
      place (7, 6) knight white None
        (place (7, 1) knight white None
          (place (0, 6) knight black None
            (place (0, 1) knight black None rooks))) in
  let bishops :=
      place (7, 5) bishop white None
        (place (7, 2) bishop white None
          (place (0, 5) bishop black None
            (place (0, 2) bishop black None knights))) in
  let queens :=
      place (7, 3) queen white None
        (place (0, 3) queen black None bishops) in
  place (7, 4) king white (Some false)
    (place (0, 4) king black (Some false) queens).

(** ** Bounds check *)

(** [r >= 0 && r < 8 && c < 8] *)
Definition isValidPosition (r c : Z) : bool :=
  (0 <=? r) && (r <? 8) && (c <? 8).

(** ** Attack detector *)

(** [board[r][c]?.type === t && board[r][c]?.color !== kingColor] *)
Definition hostileAt (b : Board) (r c : Z) (t : PieceType)
    (kingColor : PieceColor) : bool :=
  match b !! (r, c) with
  | Some p => bool_decide (type p = t) && negb (bool_decide (color p = kingColor))
  | None => false
  end.

Definition knightMoves : list (Z * Z) :=
  [(-2, -1); (-2, 1); (-1, -2); (-1, 2); (1, -2); (1, 2); (2, -1); (2, 1)].

Definition kingMoves : list (Z * Z) :=
  [(-1, -1); (-1, 0); (-1, 1); (0, -1); (0, 1); (1, -1); (1, 0); (1, 1)].

Definition rookDirections : list (Z * Z) :=
  [(-1, 0); (1, 0); (0, -1); (0, 1)].

Definition bishopDirections : list (Z * Z) :=
  [(-1, -1); (-1, 1); (1, -1); (1, 1)].

Definition queenDirections : list (Z * Z) :=
  rookDirections ++ bishopDirections.

(** The [directions] table of [isKingUnderAttack]. *)
Definition attackDirections : list (Z * Z * list PieceType) :=
  map (λ d, (d, [rook; queen])) rookDirections ++
  map (λ d, (d, [bishop; queen])) bishopDirections.

(** One sliding ray of [isKingUnderAttack]:
    [while (isValidPosition(r, c)) { if (board[r][c]) { ...; break } r += dr; c += dc }].
    [Some true]: the first piece met is a hostile one of a listed type;
    [Some false]: the ray left the board or was blocked. *)
Fixpoint attackRay (fuel : nat) (b : Board) (kingColor : PieceColor)
    (pieces : list PieceType) (r c dr dc : Z) : option bool :=
  match fuel with
  | O => None
  | S fuel' =>
      if isValidPosition r c then
        match b !! (r, c) with
        | Some p =>
            Some (negb (bool_decide (color p = kingColor))
                  && bool_decide (type p ∈ pieces))
        | None => attackRay fuel' b kingColor pieces (r + dr) (c + dc) dr dc
        end
      else Some false
  end.

(** [for (const { dr, dc, pieces } of directions) ...] with its early
    [return true]. *)
Fixpoint attackRays (fuel : nat) (b : Board) (kingColor : PieceColor)
    (kingRow kingCol : Z) (dirs : list (Z * Z * list PieceType)) : option bool :=
  match dirs with
  | [] => Some false
  | (dr, dc, pieces) :: rest =>
      hit ← attackRay fuel b kingColor pieces (kingRow + dr) (kingCol + dc) dr dc;
      if hit : bool then Some true
      else attackRays fuel b kingColor kingRow kingCol rest
  end.

(** The pawn, knight and king tests that precede the sliding scans, in the
    order of the source; [||] is lazy like the successive [return true]. *)
Definition contactAttack (b : Board) (kingRow kingCol : Z)
    (kingColor : PieceColor) : bool :=
  let pawnDirection := match kingColor with white => 1 | black => -1 end in
  (isValidPosition (kingRow + pawnDirection) (kingCol - 1)
   && hostileAt b (kingRow + pawnDirection) (kingCol - 1) pawn kingColor)
  || (isValidPosition (kingRow + pawnDirection) (kingCol + 1)
      && hostileAt b (kingRow + pawnDirection) (kingCol + 1) pawn kingColor)
  || existsb (λ d, isValidPosition (kingRow + d.1) (kingCol + d.2)
                   && hostileAt b (kingRow + d.1) (kingCol + d.2) knight kingColor)
             knightMoves
  || existsb (λ d, isValidPosition (kingRow + d.1) (kingCol + d.2)
                   && hostileAt b (kingRow + d.1) (kingCol + d.2) king kingColor)
             kingMoves.

Definition isKingUnderAttack (fuel : nat) (b : Board) (kingRow kingCol : Z)
    (kingColor : PieceColor) : option bool :=
  if contactAttack b kingRow kingCol kingColor then Some true
  else attackRays fuel b kingColor kingRow kingCol attackDirections.

(** ** Check oracle *)

Definition isKingOf (b : Board) (c : PieceColor) (k : Z * Z) : bool :=
  match b !! k with
  | Some p => bool_decide (type p = king) && bool_decide (color p = c)
  | None => false
  end.

(** The row-major search for the king, [(-1, -1)] when there is none. *)
Definition findKing (b : Board) (c : PieceColor) : Z * Z :=
  match find (isKingOf b c) squares with
  | Some k => k
  | None => (-1, -1)
  end.

Definition isCheck (fuel : nat) (b : Board) (c : PieceColor) : option bool :=
  let k := findKing b c in
  isKingUnderAttack fuel b k.1 k.2 c.

(** Simulates the move on a JSON clone and asks the attack detector. *)
Definition wouldBeInCheck (fuel : nat) (b : Board)
    (fromRow fromCol toRow toCol : Z) (pieceColor : PieceColor) : option bool :=
  let tempBoard := jsonClone b in
  let tempBoard := setCell tempBoard (toRow, toCol) (tempBoard !! (fromRow, fromCol)) in
  let tempBoard := setCell tempBoard (fromRow, fromCol) None in
  let k :=
    match tempBoard !! (toRow, toCol) with
    | Some (mkPiece king _ _) => (toRow, toCol)
    | _ => findKing tempBoard pieceColor
    end in
  isKingUnderAttack fuel tempBoard k.1 k.2 pieceColor.

(** ** Move generator *)

Definition isEmpty (b : Board) (r c : Z) : bool :=
  if isValidPosition r c then bool_decide (b !! (r, c) = None) else false.

Definition isEmptyOrCapture (b : Board) (pieceColor : PieceColor) (r c : Z) : bool :=
  if isValidPosition r c then
    match b !! (r, c) with
    | None => true
    | Some q => negb (bool_decide (color q = pieceColor))
    end
  else false.

(** [isValidPosition(r, c) && board[r][c] && board[r][c]?.color !== piece.color] *)
Definition isCapture (b : Board) (pieceColor : PieceColor) (r c : Z) : bool :=
  isValidPosition r c &&
  match b !! (r, c) with
  | None => false
  | Some q => negb (bool_decide (color q = pieceColor))
  end.

(** One ray of a rook, bishop or queen:
    [while (isValidPosition(r, c)) { if (isEmpty(r, c)) push
       else if (hostile) { push; break } else break; r += dr; c += dc }]. *)
Fixpoint slide (fuel : nat) (b : Board) (pieceColor : PieceColor)
    (r c dr dc : Z) : option (list Position) :=
  match fuel with
  | O => None
  | S fuel' =>
      if isValidPosition r c then
        match b !! (r, c) with
        | None =>
            rest ← slide fuel' b pieceColor (r + dr) (c + dc) dr dc;
            Some (mkPos r c :: rest)
        | Some q =>
            if bool_decide (color q = pieceColor) then Some []
            else Some [mkPos r c]
        end
      else Some []
  end.

Fixpoint slides (fuel : nat) (b : Board) (pieceColor : PieceColor)
    (row col : Z) (dirs : list (Z * Z)) : option (list Position) :=
  match dirs with
  | [] => Some []
  | (dr, dc) :: rest =>
      ms ← slide fuel b pieceColor (row + dr) (col + dc) dr dc;
      ms' ← slides fuel b pieceColor row col rest;
      Some (ms ++ ms')
  end.

Definition steps (b : Board) (pieceColor : PieceColor) (row col : Z)
    (offsets : list (Z * Z)) : list Position :=
  map (λ d, mkPos (row + d.1) (col + d.2))
      (List.filter (λ d, isEmptyOrCapture b pieceColor (row + d.1) (col + d.2)) offsets).

Definition pawnMoves (b : Board) (piece : ChessPiece) (row col : Z) : list Position :=
  let direction := match color piece with white => -1 | black => 1 end in
  (if isEmpty b (row + direction) col then
     mkPos (row + direction) col ::
     (if notMoved piece && isEmpty b (row + direction) col
         && isEmpty b (row + 2 * direction) col
      then [mkPos (row + 2 * direction) col] else [])
   else [])
  ++ (if isCapture b (color piece) (row + direction) (col - 1)
      then [mkPos (row + direction) (col - 1)] else [])
  ++ (if isCapture b (color piece) (row + direction) (col + 1)
      then [mkPos (row + direction) (col + 1)] else []).

(** [board[row][rookCol]?.type === "rook" && ...color === piece.color
     && !board[row][rookCol]?.hasMoved] *)
Definition castlingRook (b : Board) (pieceColor : PieceColor) (row rookCol : Z) : bool :=
  match b !! (row, rookCol) with
  | Some q => bool_decide (type q = rook) && bool_decide (color q = pieceColor)
              && notMoved q
  | None => false
  end.

(** [!isCheck(board, c) && !wouldBeInCheck(.., col + dir) && !wouldBeInCheck(.., col + 2 dir)],
    evaluated left to right with short circuit. *)
Definition castlingSafe (fuel : nat) (b : Board) (pieceColor : PieceColor)
    (row col dir : Z) : option bool :=
  chk ← isCheck fuel b pieceColor;
  if chk : bool then Some false else
  w1 ← wouldBeInCheck fuel b row col row (col + dir) pieceColor;
  if w1 : bool then Some false else
  w2 ← wouldBeInCheck fuel b row col row (col + 2 * dir) pieceColor;
  Some (negb w2).

Definition castlingMoves (fuel : nat) (b : Board) (piece : ChessPiece)
    (row col : Z) : option (list Position) :=
  if notMoved piece then
    kingside ←
      (if castlingRook b (color piece) row 7
          && bool_decide (b !! (row, 5) = None)
          && bool_decide (b !! (row, 6) = None)
       then ok ← castlingSafe fuel b (color piece) row col 1;
            Some (if ok : bool then [mkPos row (col + 2)] else [])
       else Some []);
    queenside ←
      (if castlingRook b (color piece) row 0
          && bool_decide (b !! (row, 1) = None)
          && bool_decide (b !! (row, 2) = None)
          && bool_decide (b !! (row, 3) = None)
       then ok ← castlingSafe fuel b (color piece) row col (-1);
            Some (if ok : bool then [mkPos row (col - 2)] else [])
       else Some []);
    Some (kingside ++ queenside)
  else Some [].

Definition getRawMoves (fuel : nat) (b : Board) (row col : Z) : option (list Position) :=
  match b !! (row, col) with
  | None => Some []
  | Some piece =>
      match type piece with
      | pawn => Some (pawnMoves b piece row col)
      | rook => slides fuel b (color piece) row col rookDirections
      | knight => Some (steps b (color piece) row col knightMoves)
      | bishop => slides fuel b (color piece) row col bishopDirections
      | queen => slides fuel b (color piece) row col queenDirections
      | king =>
          castling ← castlingMoves fuel b piece row col;
          Some (steps b (color piece) row col kingMoves ++ castling)
      end
  end.

(** [for (const move of rawMoves) if (!wouldBeInCheck(...)) moves.push(move)] *)
Fixpoint filterLegal (fuel : nat) (b : Board) (fromRow fromCol : Z) (c : PieceColor)
    (rawMoves : list Position) : option (list Position) :=
  match rawMoves with
  | [] => Some []
  | move :: rest =>
      w ← wouldBeInCheck fuel b fromRow fromCol (row move) (col move) c;
      ms ← filterLegal fuel b fromRow fromCol c rest;
      Some (if w : bool then ms else move :: ms)
  end.

Definition getPossibleMoves (fuel : nat) (b : Board) (row col : Z) : option (list Position) :=
  match b !! (row, col) with
  | None => Some []
  | Some piece =>
      rawMoves ← getRawMoves fuel b row col;
      filterLegal fuel b row col (color piece) rawMoves
  end.

(** ** Move executor *)

(** The assignments to [piece.type] and [piece.hasMoved]. *)
Definition promoted (piece : ChessPiece) (toRow : Z)
    (promotionPiece : option PieceType) : ChessPiece :=
  if bool_decide (type piece = pawn) && (bool_decide (toRow = 0) || bool_decide (toRow = 7))
  then mkPiece (default queen promotionPiece) (color piece) (hasMoved piece)
  else piece.

Definition flagged (piece : ChessPiece) : ChessPiece :=
  if bool_decide (type piece = king) || bool_decide (type piece = rook)
     || bool_decide (type piece = pawn)
  then mkPiece (type piece) (color piece) (Some true)
  else piece.

(** [piece] is the object held by the cell [from] of the clone; the rook
    relocation copies a reference, so when the relocated cell is [from] itself
    the later assignments to [piece] show through the copy. *)
Definition movePiece (b : Board) (fromRow fromCol toRow toCol : Z)
    (promotionPiece : option PieceType) : Board :=
  let newBoard := jsonClone b in
  match newBoard !! (fromRow, fromCol) with
  | None => newBoard
  | Some piece =>
      let castling := bool_decide (type piece = king)
                      && bool_decide (Z.abs (fromCol - toCol) = 2) in
      let rookFrom := if toCol >? fromCol then 7 else 0 in
      let rookTo := if toCol >? fromCol then 5 else 3 in
      let moved := flagged (promoted piece toRow promotionPiece) in
      let newBoard :=
        if castling then
          let relocated :=
            if bool_decide ((toRow, rookFrom) = (fromRow, fromCol)) then Some moved
            else newBoard !! (toRow, rookFrom) in
          setCell (setCell newBoard (toRow, rookTo) relocated) (toRow, rookFrom) None
        else newBoard in
      setCell (setCell newBoard (toRow, toCol) (Some moved)) (fromRow, fromCol) None
  end.

(** ** Checkmate oracle *)

(** The scan of [isCheckmate]: [Some true] when it reaches a piece of the
    colour with a non-empty move list. *)
Fixpoint hasLegalMove (fuel : nat) (b : Board) (c : PieceColor)
    (sqs : list (Z * Z)) : option bool :=
  match sqs with
  | [] => Some false
  | k :: rest =>
      match b !! k with
      | Some piece =>
          if bool_decide (color piece = c) then
            moves ← getPossibleMoves fuel b k.1 k.2;
            match moves with
            | [] => hasLegalMove fuel b c rest
            | _ :: _ => Some true
            end
          else hasLegalMove fuel b c rest
      | None => hasLegalMove fuel b c rest
      end
  end.

Definition isCheckmate (fuel : nat) (b : Board) (c : PieceColor) : option bool :=
  chk ← isCheck fuel b c;
  if chk : bool then
    any ← hasLegalMove fuel b c squares;
    Some (negb any)
  else Some false.

(** ** Evaluator *)

Definition pieceValues (t : PieceType) : Z :=
  match t with
  | pawn => 1 | knight => 3 | bishop => 3 | rook => 5 | queen => 9 | king => 0
  end.

Section Evaluator.
(** The score is a JavaScript number.  Its arithmetic is kept abstract:
    [ofInt] embeds the integer literals, [ofTenths k] is the literal
    [k / 10] (0.1, 0.3, 0.5 and their negations). *)
Context {num : Type}.
Variables (ofInt ofTenths : Z → num) (add sub : num → num → num).

Definition material (b : Board) : num :=
  foldl (λ score k,
           match b !! k with
           | Some piece =>
               add score (ofInt (match color piece with
                                 | white => pieceValues (type piece)
                                 | black => - pieceValues (type piece)
                                 end))
           | None => score
           end) (ofInt 0) squares.

Definition centerSquares : list (Z * Z) :=
  r ← [2; 3; 4; 5]; c ← [2; 3; 4; 5]; [(r, c)].

Definition positional (b : Board) (score : num) : num :=
  foldl (λ score k,
           match b !! k with
           | Some piece =>
               let centerValue :=
                 if (bool_decide (k.1 = 3) || bool_decide (k.1 = 4))
                    && (bool_decide (k.2 = 3) || bool_decide (k.2 = 4))
                 then 3 else 1 in
               add score (ofTenths (match color piece with
                                    | white => centerValue
                                    | black => - centerValue
                                    end))
           | None => score
           end) score centerSquares.

Definition evaluateBoard (fuel : nat) (b : Board) : option num :=
  let score := positional b (material b) in
  whiteMated ← isCheckmate fuel b white;
  if whiteMated : bool then Some (ofInt (-1000)) else
  blackMated ← isCheckmate fuel b black;
  if blackMated : bool then Some (ofInt 1000) else
  whiteChecked ← isCheck fuel b white;
  if whiteChecked : bool then Some (sub score (ofTenths 5)) else
  blackChecked ← isCheck fuel b black;
  if blackChecked : bool then Some (add score (ofTenths 5)) else
  Some score.
End Evaluator.

(** * Notions used in the statements *)

(** A board all of whose pieces sit on the 8x8 grid: a plain array of eight
    rows of eight cells, with no stray property on a row. *)
Definition plainGrid (b : Board) : Prop :=
  map_Forall (λ k _, onGrid k) b.

(** No piece on row [r] at column [c] or to its left (negative columns
    included). *)
Definition openLeft (b : Board) (r c : Z) : Prop :=
  map_Forall (λ k _, k.1 = r → c < k.2) b.

(** One ply of a game: the move must be in the generator's list for the
    origin square; it is then applied by the executor (default promotion). *)
Definition legalStep (fuel : nat) (b : Board) (mv : (Z * Z) * (Z * Z)) : option Board :=
  moves ← getPossibleMoves fuel b mv.1.1 mv.1.2;
  if bool_decide (mkPos mv.2.1 mv.2.2 ∈ moves)
  then Some (movePiece b mv.1.1 mv.1.2 mv.2.1 mv.2.2 None)
  else None.

Fixpoint play (fuel : nat) (b : Board) (mvs : list ((Z * Z) * (Z * Z))) : option Board :=
  match mvs with
  | [] => Some b
  | mv :: rest => b' ← legalStep fuel b mv; play fuel b' rest
  end.

Definition countKings (b : Board) (c : PieceColor) : nat :=
  length (List.filter (isKingOf b c) squares).

(** The castling condition in the words of the claim, for the rook on
    column [rookCol] and a king moving [dir] per file: king and rook unmoved,
    every square strictly between them empty, the king not in check, and
    neither the transit nor the destination square attacked (tested, as the
    generator does, by simulating the king's moves of one and two files). *)
Definition castlingClaimed (fuel : nat) (b : Board) (piece : ChessPiece)
    (r c rookCol dir : Z) : Prop :=
  notMoved piece = true
  ∧ castlingRook b (color piece) r rookCol = true
  ∧ (∀ c', Z.min c rookCol < c' < Z.max c rookCol → b !! (r, c') = None)
  ∧ isCheck fuel b (color piece) = Some false
  ∧ wouldBeInCheck fuel b r c r (c + dir) (color piece) = Some false
  ∧ wouldBeInCheck fuel b r c r (c + 2 * dir) (color piece) = Some false.

(** ** Positions used as concrete inputs *)

(** The initial position with b1, c1 and d1 cleared: White may castle long. *)
Definition queensideBoard : Board :=
  delete (7, 1) (delete (7, 2) (delete (7, 3) initialBoard)).

(** Both kings smothered in their corners and each attacked by a knight. *)
Definition doubleMate : Board :=
  place (7, 7) king white (Some true)
    (place (7, 6) knight white None
      (place (6, 6) pawn white (Some false)
        (place (6, 7) pawn white (Some false)
          (place (1, 5) knight white None
  (place (0, 7) king black (Some true)
    (place (0, 6) knight black None
      (place (1, 6) pawn black (Some false)
        (place (1, 7) pawn black (Some false)
          (place (6, 5) knight black None ∅))))))))).

(** [doubleMate] without the knight that attacks the white king. *)
Definition blackMate : Board := delete (6, 5) doubleMate.

(** A white pawn on a7, one step from promotion, and the two kings. *)
Definition promotionBoard : Board :=
  place (1, 0) pawn white (Some true)
    (place (7, 4) king white (Some false)
      (place (0, 4) king black (Some false) ∅)).

(** An unmoved white king on d1 with a knight on e1 between it and the
    unmoved rook on h1. *)
Definition offFileBoard : Board :=
  place (7, 3) king white (Some false)
    (place (7, 4) knight white None
      (place (7, 7) rook white (Some false)
        (place (7, 0) rook white (Some false)
          (place (6, 0) pawn white (Some false) ∅)))).

(** 1. e4 b5 2. a3 a6 3. b4 h6 4. Ke2 h5 5. Ke3 h4 6. Kf4 h3 7. Ke5 g6
    8. Ke6 dxe6, as (origin, destination) pairs. *)
Definition kingHunt : list ((Z * Z) * (Z * Z)) :=
  [ ((6, 4), (4, 4)); ((1, 1), (3, 1));
    ((6, 0), (5, 0)); ((1, 0), (2, 0));
    ((6, 1), (4, 1)); ((1, 7), (2, 7));
    ((7, 4), (6, 4)); ((2, 7), (3, 7));
    ((6, 4), (5, 4)); ((3, 7), (4, 7));
    ((5, 4), (4, 5)); ((4, 7), (5, 7));
    ((4, 5), (3, 4)); ((1, 6), (2, 6));
    ((3, 4), (2, 4)); ((1, 3), (2, 4)) ].

(** * Properties *)

(** ** Cells of cloned and updated boards *)

Lemma lookup_jsonClone (b : Board) (k : Z * Z) :
  jsonClone b !! k = if decide (onGrid k) then b !! k else None.
Proof.
  unfold jsonClone. rewrite map_lookup_filter.
  destruct (b !! k) as [p|]; simpl.
  - case_decide; [by rewrite option_guard_True | by rewrite option_guard_False].
  - by case_decide.
Qed.

Lemma lookup_setCell (b : Board) (k k' : Z * Z) (v : option ChessPiece) :
  setCell b k v !! k' = if decide (k = k') then v else b !! k'.
Proof. unfold setCell. apply lookup_partial_alter. Qed.

Lemma jsonClone_plainGrid (b : Board) : plainGrid b → jsonClone b = b.
Proof.
  intros Hb. unfold jsonClone. apply map_filter_id.
  intros k p Hk. exact (Hb k p Hk).
Qed.


(** ** The move executor *)

(** C6. With no piece at the origin, [movePiece] returns its JSON clone of
    the board, which for a plain 8x8 board (origin row dereferenceable) is
    the input board itself, whatever the destination and promotion. *)
Theorem movePiece_empty_origin (b : Board) (fromRow fromCol toRow toCol : Z)
    (promotionPiece : option PieceType) :
  plainGrid b →
  0 ≤ fromRow < 8 →
  b !! (fromRow, fromCol) = None →
  movePiece b fromRow fromCol toRow toCol promotionPiece = b.
Proof.
  intros Hb _ Hnone. unfold movePiece.
  rewrite (jsonClone_plainGrid b Hb), Hnone. reflexivity.
Qed.

Lemma initialBoard_plainGrid : plainGrid initialBoard.
Proof. apply (bool_decide_unpack _). vm_compute. exact I. Qed.

Lemma movePiece_empty_origin_witness :
  movePiece initialBoard 4 4 3 4 (Some rook) = initialBoard.
Proof.
  apply movePiece_empty_origin.
  - apply (bool_decide_unpack _). vm_compute. exact I.
  - lia.
  - vm_compute. reflexivity.
Defined.

Lemma movePiece_destination (b : Board) (fromRow fromCol toRow toCol : Z)
    (promotionPiece : option PieceType) (piece : ChessPiece) :
  onGrid (fromRow, fromCol) →
  b !! (fromRow, fromCol) = Some piece →
  (fromRow, fromCol) ≠ (toRow, toCol) →
  movePiece b fromRow fromCol toRow toCol promotionPiece !! (toRow, toCol)
  = Some (flagged (promoted piece toRow promotionPiece)).
Proof.
  intros Hgrid Hp Hne. unfold movePiece.
  rewrite lookup_jsonClone, decide_True, Hp by assumption.
  rewrite !lookup_setCell.
  rewrite decide_False by assumption.
  rewrite decide_True by reflexivity. reflexivity.
Qed.

(** C9. A pawn moved to row 0 or row 7 with no promotion type supplied
    stands on the destination as a queen of its own colour. *)
Theorem movePiece_default_promotion (b : Board) (fromRow fromCol toRow toCol : Z)
    (piece : ChessPiece) :
  onGrid (fromRow, fromCol) →
  b !! (fromRow, fromCol) = Some piece →
  type piece = pawn →
  toRow = 0 ∨ toRow = 7 →
  (fromRow, fromCol) ≠ (toRow, toCol) →
  movePiece b fromRow fromCol toRow toCol None !! (toRow, toCol)
  = Some (mkPiece queen (color piece) (hasMoved piece)).
Proof.
  intros Hgrid Hp Hpawn Hrow Hne.
  rewrite (movePiece_destination b _ _ _ _ None piece Hgrid Hp Hne).
  unfold promoted. rewrite Hpawn.
  destruct Hrow as [-> | ->]; reflexivity.
Qed.

Lemma movePiece_default_promotion_witness :
  movePiece promotionBoard 1 0 0 0 None !! (0, 0)
  = Some (mkPiece queen white (Some true)).
Proof.
  apply (movePiece_default_promotion promotionBoard 1 0 0 0
           (mkPiece pawn white (Some true))).
  - split; simpl; lia.
  - vm_compute. reflexivity.
  - reflexivity.
  - left. reflexivity.
  - intros [=].
Defined.

Lemma promoted_color (piece : ChessPiece) (toRow : Z) (promotionPiece : option PieceType) :
  color (promoted piece toRow promotionPiece) = color piece.
Proof. unfold promoted. by destruct (_ && _). Qed.

Lemma promoted_hasMoved (piece : ChessPiece) (toRow : Z) (promotionPiece : option PieceType) :
  hasMoved (promoted piece toRow promotionPiece) = hasMoved piece.
Proof. unfold promoted. by destruct (_ && _). Qed.

(** C8 (as amended). The piece moved from the origin to the destination
    keeps its colour, takes the type left by the promotion step, and carries
    [hasMoved = true] exactly when that type is king, rook or pawn (whatever
    the flag was before); with any other type, a pawn promoted to it
    included, it keeps the flag it had.  The rook relocated by castling a
    king from file e is carried over unchanged, flag included. *)
Theorem movePiece_hasMoved (b : Board) (fromRow fromCol toRow toCol : Z)
    (promotionPiece : option PieceType) (piece : ChessPiece) :
  onGrid (fromRow, fromCol) →
  b !! (fromRow, fromCol) = Some piece →
  (fromRow, fromCol) ≠ (toRow, toCol) →
  (∃ moved,
      movePiece b fromRow fromCol toRow toCol promotionPiece !! (toRow, toCol)
      = Some moved
      ∧ type moved = type (promoted piece toRow promotionPiece)
      ∧ color moved = color piece
      ∧ hasMoved moved = match type moved with
                         | king | rook | pawn => Some true
                         | _ => hasMoved piece
                         end)
  ∧ (type piece = king → fromCol = 4 → toRow = fromRow →
     (toCol = 6 →
      movePiece b fromRow fromCol toRow toCol promotionPiece !! (toRow, 5)
      = b !! (toRow, 7))
     ∧ (toCol = 2 →
        movePiece b fromRow fromCol toRow toCol promotionPiece !! (toRow, 3)
        = b !! (toRow, 0))).
Proof.
  intros Hgrid Hp Hne. split.
  - exists (flagged (promoted piece toRow promotionPiece)).
    split; [by apply movePiece_destination|].
    pose proof (promoted_color piece toRow promotionPiece) as Hc.
    pose proof (promoted_hasMoved piece toRow promotionPiece) as Hm.
    unfold flagged.
    destruct (promoted piece toRow promotionPiece) as [t c m].
    simpl in Hc, Hm. subst c m.
    destruct t; simpl; repeat split; reflexivity.
  - intros Hking -> ->. destruct Hgrid as [Hrow _]. simpl in Hrow.
    unfold movePiece.
    rewrite lookup_jsonClone, decide_True, Hp by (split; simpl; lia).
    rewrite Hking. simpl.
    split; intros ->; simpl; rewrite !lookup_setCell;
      repeat (case_decide; simplify_eq); rewrite lookup_jsonClone;
      (rewrite decide_True by (split; simpl; lia)); reflexivity.
Qed.

Lemma movePiece_hasMoved_witness :
  (∃ moved,
      movePiece queensideBoard 7 4 7 2 None !! (7, 2) = Some moved
      ∧ type moved = type (promoted (mkPiece king white (Some false)) 7 None)
      ∧ color moved = white
      ∧ hasMoved moved = match type moved with
                         | king | rook | pawn => Some true
                         | _ => Some false
                         end)
  ∧ (king = king → 4 = 4 → 7 = 7 →
     (2 = 6 → movePiece queensideBoard 7 4 7 2 None !! (7, 5) = queensideBoard !! (7, 7))
     ∧ (2 = 2 → movePiece queensideBoard 7 4 7 2 None !! (7, 3) = queensideBoard !! (7, 0))).
Proof.
  apply (movePiece_hasMoved queensideBoard 7 4 7 2 None (mkPiece king white (Some false))).
  - split; simpl; lia.
  - vm_compute. reflexivity.
  - intros [=].
Defined.

(** C8, the claim as stated fails: after castling long from [queensideBoard]
    the relocated rook stands on d1 with [hasMoved = false]. *)
Lemma castled_rook_not_flagged :
  ∃ r, movePiece queensideBoard 7 4 7 2 None !! (7, 3) = Some r
       ∧ type r = rook ∧ hasMoved r = Some false.
Proof. eexists. split; [vm_compute; reflexivity|]. split; reflexivity. Qed.

#[global] Arguments isKingUnderAttack : simpl never.
#[global] Arguments isCheck : simpl never.
#[global] Arguments wouldBeInCheck : simpl never.
#[global] Arguments castlingSafe : simpl never.
#[global] Arguments castlingMoves : simpl never.
#[global] Arguments getRawMoves : simpl never.
#[global] Arguments getPossibleMoves : simpl never.
#[global] Arguments movePiece : simpl never.
#[global] Arguments isCheckmate : simpl never.
#[global] Arguments jsonClone : simpl never.

(** ** Fuel

    More fuel never changes a result: once a call returns with some budget
    of loop iterations it returns the same value with any larger one. *)

Lemma attackRay_mono (n m : nat) (b : Board) (kingColor : PieceColor)
    (pieces : list PieceType) (r c dr dc : Z) (v : bool) :
  (n ≤ m)%nat →
  attackRay n b kingColor pieces r c dr dc = Some v →
  attackRay m b kingColor pieces r c dr dc = Some v.
Proof.
  revert m r c. induction n as [|n IH]; intros m r c Hle; [discriminate|].
  destruct m as [|m]; [lia|]. simpl.
  destruct (isValidPosition r c); [|done].
  destruct (b !! (r, c)); [done|].
  apply IH. lia.
Qed.

Lemma attackRays_mono (n m : nat) (b : Board) (kingColor : PieceColor)
    (kingRow kingCol : Z) (dirs : list (Z * Z * list PieceType)) (v : bool) :
  (n ≤ m)%nat →
  attackRays n b kingColor kingRow kingCol dirs = Some v →
  attackRays m b kingColor kingRow kingCol dirs = Some v.
Proof.
  intros Hle. induction dirs as [|[[dr dc] pieces] rest IH]; simpl; [done|].
  destruct (attackRay n _ _ _ _ _ _ _) as [hit|] eqn:Hray; [|discriminate].
  rewrite (attackRay_mono n m _ _ _ _ _ _ _ hit Hle Hray). simpl.
  destruct hit; [done | exact IH].
Qed.

Lemma isKingUnderAttack_mono (n m : nat) (b : Board) (kingRow kingCol : Z)
    (kingColor : PieceColor) (v : bool) :
  (n ≤ m)%nat →
  isKingUnderAttack n b kingRow kingCol kingColor = Some v →
  isKingUnderAttack m b kingRow kingCol kingColor = Some v.
Proof.
  intros Hle. unfold isKingUnderAttack.
  destruct (contactAttack _ _ _ _); [done|]. by apply attackRays_mono.
Qed.

Lemma isCheck_mono (n m : nat) (b : Board) (c : PieceColor) (v : bool) :
  (n ≤ m)%nat → isCheck n b c = Some v → isCheck m b c = Some v.
Proof. intros Hle. by apply isKingUnderAttack_mono. Qed.

Lemma wouldBeInCheck_mono (n m : nat) (b : Board)
    (fromRow fromCol toRow toCol : Z) (c : PieceColor) (v : bool) :
  (n ≤ m)%nat →
  wouldBeInCheck n b fromRow fromCol toRow toCol c = Some v →
  wouldBeInCheck m b fromRow fromCol toRow toCol c = Some v.
Proof. intros Hle. by apply isKingUnderAttack_mono. Qed.

Lemma slide_mono (n m : nat) (b : Board) (pieceColor : PieceColor)
    (r c dr dc : Z) (ms : list Position) :
  (n ≤ m)%nat →
  slide n b pieceColor r c dr dc = Some ms →
  slide m b pieceColor r c dr dc = Some ms.
Proof.
  revert m r c ms. induction n as [|n IH]; intros m r c ms Hle; [discriminate|].
  destruct m as [|m]; [lia|]. simpl.
  destruct (isValidPosition r c); [|done].
  destruct (b !! (r, c)); [done|].
  destruct (slide n _ _ _ _ _ _) as [rest|] eqn:Hrest; [|discriminate].
  rewrite (IH m _ _ rest); [done | lia | done].
Qed.

Lemma slides_mono (n m : nat) (b : Board) (pieceColor : PieceColor)
    (row col : Z) (dirs : list (Z * Z)) (ms : list Position) :
  (n ≤ m)%nat →
  slides n b pieceColor row col dirs = Some ms →
  slides m b pieceColor row col dirs = Some ms.
Proof.
  intros Hle. revert ms.
  induction dirs as [|[dr dc] rest IH]; intros ms; simpl; [done|].
  destruct (slide n _ _ _ _ _ _) as [ms1|] eqn:H1; [|discriminate].
  rewrite (slide_mono n m _ _ _ _ _ _ ms1 Hle H1). simpl.
  destruct (slides n _ _ _ _ _) as [ms2|] eqn:H2; [|discriminate].
  rewrite (IH ms2 eq_refl). done.
Qed.

Lemma castlingSafe_mono (n m : nat) (b : Board) (pieceColor : PieceColor)
    (row col dir : Z) (v : bool) :
  (n ≤ m)%nat →
  castlingSafe n b pieceColor row col dir = Some v →
  castlingSafe m b pieceColor row col dir = Some v.
Proof.
  intros Hle. unfold castlingSafe. intros H.
  apply bind_Some in H as (chk & Hchk & H).
  apply bind_Some. exists chk. split; [by eapply isCheck_mono|].
  destruct chk; [exact H|].
  apply bind_Some in H as (w1 & Hw1 & H).
  apply bind_Some. exists w1. split; [by eapply wouldBeInCheck_mono|].
  destruct w1; [exact H|].
  apply bind_Some in H as (w2 & Hw2 & H).
  apply bind_Some. exists w2. split; [by eapply wouldBeInCheck_mono | exact H].
Qed.

Lemma castlingMoves_mono (n m : nat) (b : Board) (piece : ChessPiece)
    (row col : Z) (ms : list Position) :
  (n ≤ m)%nat →
  castlingMoves n b piece row col = Some ms →
  castlingMoves m b piece row col = Some ms.
Proof.
  intros Hle. unfold castlingMoves.
  destruct (notMoved piece); [|exact id]. intros H.
  apply bind_Some in H as (ks & Hks & H).
  apply bind_Some in H as (qs & Hqs & H).
  apply bind_Some. exists ks. split.
  { destruct (castlingRook b (color piece) row 7 && _ && _); [|exact Hks].
    apply bind_Some in Hks as (ok & Hok & Hks).
    apply bind_Some. exists ok. split; [by eapply castlingSafe_mono | exact Hks]. }
  apply bind_Some. exists qs. split; [|exact H].
  destruct (castlingRook b (color piece) row 0 && _ && _ && _); [|exact Hqs].
  apply bind_Some in Hqs as (ok & Hok & Hqs).
  apply bind_Some. exists ok. split; [by eapply castlingSafe_mono | exact Hqs].
Qed.

Lemma getRawMoves_mono (n m : nat) (b : Board) (row col : Z) (ms : list Position) :
  (n ≤ m)%nat →
  getRawMoves n b row col = Some ms →
  getRawMoves m b row col = Some ms.
Proof.
  intros Hle. unfold getRawMoves.
  destruct (b !! (row, col)) as [piece|]; [|exact id].
  destruct (type piece); try exact id; try (by apply slides_mono).
  intros H. apply bind_Some in H as (cs & Hcs & H).
  apply bind_Some. exists cs. split; [by eapply castlingMoves_mono | exact H].
Qed.

Lemma filterLegal_mono (n m : nat) (b : Board) (fromRow fromCol : Z)
    (c : PieceColor) (rawMoves ms : list Position) :
  (n ≤ m)%nat →
  filterLegal n b fromRow fromCol c rawMoves = Some ms →
  filterLegal m b fromRow fromCol c rawMoves = Some ms.
Proof.
  intros Hle. revert ms.
  induction rawMoves as [|move rest IH]; intros ms; [exact id|].
  cbn [filterLegal]. intros H.
  apply bind_Some in H as (w & Hw & H).
  apply bind_Some in H as (ms' & Hms & H).
  apply bind_Some. exists w. split; [by eapply wouldBeInCheck_mono|].
  apply bind_Some. exists ms'. split; [by apply IH | exact H].
Qed.

Lemma getPossibleMoves_mono (n m : nat) (b : Board) (row col : Z) (ms : list Position) :
  (n ≤ m)%nat →
  getPossibleMoves n b row col = Some ms →
  getPossibleMoves m b row col = Some ms.
Proof.
  intros Hle. unfold getPossibleMoves.
  destruct (b !! (row, col)) as [piece|]; [|exact id].
  intros H. apply bind_Some in H as (raw & Hraw & H).
  apply bind_Some. exists raw. split; [by eapply getRawMoves_mono|].
  by eapply filterLegal_mono.
Qed.

Lemma hasLegalMove_mono (n m : nat) (b : Board) (c : PieceColor)
    (sqs : list (Z * Z)) (v : bool) :
  (n ≤ m)%nat →
  hasLegalMove n b c sqs = Some v →
  hasLegalMove m b c sqs = Some v.
Proof.
  intros Hle. induction sqs as [|k rest IH]; [exact id|].
  cbn [hasLegalMove].
  destruct (b !! k) as [piece|]; [|exact IH].
  destruct (bool_decide _); [|exact IH].
  intros H. apply bind_Some in H as (ms & Hms & H).
  apply bind_Some. exists ms. split; [by eapply getPossibleMoves_mono|].
  destruct ms; [by apply IH | exact H].
Qed.

Lemma isCheckmate_mono (n m : nat) (b : Board) (c : PieceColor) (v : bool) :
  (n ≤ m)%nat → isCheckmate n b c = Some v → isCheckmate m b c = Some v.
Proof.
  intros Hle. unfold isCheckmate. intros H.
  apply bind_Some in H as (chk & Hchk & H).
  apply bind_Some. exists chk. split; [by eapply isCheck_mono|].
  destruct chk; [|exact H].
  apply bind_Some in H as (any & Hany & H).
  apply bind_Some. exists any. split; [by eapply hasLegalMove_mono | exact H].
Qed.

Lemma attackRay_agree (n m : nat) (b : Board) (kingColor : PieceColor)
    (pieces : list PieceType) (r c dr dc : Z) (v w : bool) :
  attackRay n b kingColor pieces r c dr dc = Some v →
  attackRay m b kingColor pieces r c dr dc = Some w →
  v = w.
Proof.
  intros Hn Hm.
  apply (attackRay_mono n (n `max` m)) in Hn; [|lia].
  apply (attackRay_mono m (n `max` m)) in Hm; [|lia].
  congruence.
Qed.

(** ** The bounds check and the leftward scans *)

Lemma isValidPosition_true (r c : Z) :
  isValidPosition r c = true ↔ 0 ≤ r < 8 ∧ c < 8.
Proof. unfold isValidPosition. rewrite !andb_true_iff. lia. Qed.

Lemma openLeft_lookup (b : Board) (r c c' : Z) :
  openLeft b r c → c' ≤ c → b !! (r, c') = None.
Proof.
  intros Hopen Hle. destruct (b !! (r, c')) as [p|] eqn:Hp; [|reflexivity].
  apply Hopen in Hp. simpl in Hp. lia.
Qed.

(** With nothing on the row at or left of the starting column, the leftward
    ray of the attack detector uses up any budget of iterations. *)
Lemma attackRay_left_diverges (b : Board) (kingColor : PieceColor)
    (pieces : list PieceType) (r c : Z) :
  0 ≤ r < 8 → c < 8 → openLeft b r c →
  ∀ fuel, attackRay fuel b kingColor pieces r c 0 (-1) = None.
Proof.
  intros Hr Hc Hopen fuel. revert c Hc Hopen.
  induction fuel as [|fuel IH]; intros c Hc Hopen; [reflexivity|].
  cbn [attackRay].
  rewrite (proj2 (isValidPosition_true r c)) by lia.
  rewrite (openLeft_lookup b r c c Hopen) by lia.
  rewrite Z.add_0_r. apply IH; [lia|].
  intros k p Hk Hrow. specialize (Hopen k p Hk Hrow). lia.
Qed.

(** The same for the leftward ray of a rook or queen in the generator. *)
Lemma slide_left_diverges (b : Board) (pieceColor : PieceColor) (r c : Z) :
  0 ≤ r < 8 → c < 8 → openLeft b r c →
  ∀ fuel, slide fuel b pieceColor r c 0 (-1) = None.
Proof.
  intros Hr Hc Hopen fuel. revert c Hc Hopen.
  induction fuel as [|fuel IH]; intros c Hc Hopen; [reflexivity|].
  cbn [slide].
  rewrite (proj2 (isValidPosition_true r c)) by lia.
  rewrite (openLeft_lookup b r c c Hopen) by lia.
  rewrite Z.add_0_r, IH; [reflexivity | lia |].
  intros k p Hk Hrow. specialize (Hopen k p Hk Hrow). lia.
Qed.

(** A square that is free of contact attacks, is not attacked along its
    file, and has an empty row to its left: the detector never returns. *)
Lemma isKingUnderAttack_open_left (b : Board) (kingRow kingCol : Z)
    (kingColor : PieceColor) (n : nat) :
  contactAttack b kingRow kingCol kingColor = false →
  attackRay n b kingColor [rook; queen] (kingRow + -1) (kingCol + 0) (-1) 0 = Some false →
  attackRay n b kingColor [rook; queen] (kingRow + 1) (kingCol + 0) 1 0 = Some false →
  0 ≤ kingRow < 8 → kingCol ≤ 8 →
  openLeft b kingRow (kingCol - 1) →
  ∀ fuel, isKingUnderAttack fuel b kingRow kingCol kingColor = None.
Proof.
  intros Hcontact Hup Hdown Hr Hc Hopen fuel.
  unfold isKingUnderAttack. rewrite Hcontact.
  unfold attackDirections, rookDirections. cbn [map app attackRays].
  destruct (attackRay fuel b kingColor [rook; queen] (kingRow + -1) _ _ _)
    as [up|] eqn:Hup'; [|reflexivity].
  rewrite (attackRay_agree _ _ _ _ _ _ _ _ _ _ _ Hup' Hup). cbn.
  destruct (attackRay fuel b kingColor [rook; queen] (kingRow + 1) _ _ _)
    as [down|] eqn:Hdown'; [|reflexivity].
  rewrite (attackRay_agree _ _ _ _ _ _ _ _ _ _ _ Hdown' Hdown). cbn.
  rewrite attackRay_left_diverges; [reflexivity | lia | lia |].
  rewrite Z.add_0_r. intros k p Hk Hrow.
  specialize (Hopen k p Hk Hrow). lia.
Qed.

(** C1, a generated destination off the board: from the initial position
    the knight on b1 is offered the square at row 6, column -1. *)
Theorem getPossibleMoves_off_board :
  getPossibleMoves 20 initialBoard 7 1
  = Some [mkPos 5 0; mkPos 5 2; mkPos 6 (-1)].
Proof. vm_compute. reflexivity. Qed.

(** C2, a call that never returns: on the initial position the scan from
    e4 exhausts every budget, its leftward ray running past column 0. *)
Theorem isKingUnderAttack_diverges :
  ∀ fuel, isKingUnderAttack fuel initialBoard 4 4 white = None.
Proof.
  apply (isKingUnderAttack_open_left initialBoard 4 4 white 8).
  - vm_compute. reflexivity.
  - vm_compute. reflexivity.
  - vm_compute. reflexivity.
  - lia.
  - lia.
  - apply (bool_decide_unpack _). vm_compute. exact I.
Qed.

(** C3, a generated move after which the check oracle never returns: White
    is offered castling long on [queensideBoard], and on the board the
    executor returns for it [isCheck] exhausts every budget. *)
Theorem castling_long_isCheck_diverges :
  getPossibleMoves 20 queensideBoard 7 4 = Some [mkPos 7 3; mkPos 7 2]
  ∧ ∀ fuel, isCheck fuel (movePiece queensideBoard 7 4 7 2 None) white = None.
Proof.
  split; [vm_compute; reflexivity|].
  unfold isCheck.
  replace (findKing (movePiece queensideBoard 7 4 7 2 None) white) with (7, 2)
    by (vm_compute; reflexivity).
  apply (isKingUnderAttack_open_left _ 7 2 white 8).
  - vm_compute. reflexivity.
  - vm_compute. reflexivity.
  - vm_compute. reflexivity.
  - lia.
  - lia.
  - apply (bool_decide_unpack _). vm_compute. exact I.
Qed.

(** ** The checkmate oracle *)

Lemma hasLegalMove_false (fuel : nat) (b : Board) (c : PieceColor) (sqs : list (Z * Z)) :
  hasLegalMove fuel b c sqs = Some false ↔
  ∀ k p, k ∈ sqs → b !! k = Some p → color p = c →
         getPossibleMoves fuel b k.1 k.2 = Some [].
Proof.
  induction sqs as [|k rest IH]; cbn [hasLegalMove].
  { split; [|done]. intros _ k p Hk. by apply elem_of_nil in Hk. }
  split.
  - intros H k' p' Hk' Hp' Hc'. apply elem_of_cons in Hk' as [->|Hin].
    + rewrite Hp' in H. rewrite bool_decide_eq_true_2 in H by done.
      apply bind_Some in H as (ms & Hms & H). by destruct ms.
    + destruct (b !! k) as [p|]; [|by eapply IH].
      destruct (bool_decide (color p = c)); [|by eapply IH].
      apply bind_Some in H as (ms & Hms & H).
      destruct ms; [by eapply IH | discriminate].
  - intros H.
    assert (hasLegalMove fuel b c rest = Some false) as Hrest.
    { apply IH. intros k' p' Hk'. apply H. by right. }
    destruct (b !! k) as [p|] eqn:Hp; [|done].
    case_bool_decide as Hc; [|done].
    rewrite (H k p) by (done || by left). done.
Qed.

Lemma hasLegalMove_true (fuel : nat) (b : Board) (c : PieceColor) (sqs : list (Z * Z)) :
  hasLegalMove fuel b c sqs = Some true →
  ∃ k p m ms, k ∈ sqs ∧ b !! k = Some p ∧ color p = c
              ∧ getPossibleMoves fuel b k.1 k.2 = Some (m :: ms).
Proof.
  induction sqs as [|k rest IH]; cbn [hasLegalMove]; [discriminate|].
  assert (hasLegalMove fuel b c rest = Some true →
          ∃ k' p m ms, k' ∈ k :: rest ∧ b !! k' = Some p ∧ color p = c
                       ∧ getPossibleMoves fuel b k'.1 k'.2 = Some (m :: ms)) as IH'.
  { intros H. destruct (IH H) as (k' & p & m & ms & Hin & Hrest).
    exists k', p, m, ms. split; [by right | exact Hrest]. }
  destruct (b !! k) as [p|] eqn:Hp; [|exact IH'].
  case_bool_decide as Hc; [|exact IH'].
  intros H. apply bind_Some in H as (ms & Hms & H).
  destruct ms as [|m ms]; [by apply IH'|].
  exists k, p, m, ms. split; [by left | done].
Qed.

(** C4. [isCheckmate] returns true exactly when [isCheck] returns true and
    the generator returns the empty list for every square holding a piece of
    the colour; it returns false at once when [isCheck] returns false; and
    when it returns false, either the colour is not in check or some piece of
    the colour has a move. *)
Theorem isCheckmate_iff (fuel : nat) (b : Board) (c : PieceColor) :
  (isCheckmate fuel b c = Some true ↔
     isCheck fuel b c = Some true
     ∧ ∀ k p, k ∈ squares → b !! k = Some p → color p = c →
              getPossibleMoves fuel b k.1 k.2 = Some [])
  ∧ (isCheck fuel b c = Some false → isCheckmate fuel b c = Some false)
  ∧ (isCheckmate fuel b c = Some false →
       isCheck fuel b c = Some false
       ∨ ∃ k p m ms, k ∈ squares ∧ b !! k = Some p ∧ color p = c
                     ∧ getPossibleMoves fuel b k.1 k.2 = Some (m :: ms)).
Proof.
  unfold isCheckmate. split; [split|split].
  - intros H. apply bind_Some in H as (chk & Hchk & H).
    destruct chk; [|discriminate]. split; [exact Hchk|].
    apply bind_Some in H as (any & Hany & H).
    destruct any; [discriminate|]. by apply hasLegalMove_false.
  - intros [Hchk Hnone]. apply bind_Some. exists true. split; [exact Hchk|].
    apply hasLegalMove_false in Hnone.
    apply bind_Some. exists false. split; [exact Hnone | reflexivity].
  - intros Hchk. apply bind_Some. exists false. split; [exact Hchk | reflexivity].
  - intros H. apply bind_Some in H as (chk & Hchk & H).
    destruct chk; [|by left]. right.
    apply bind_Some in H as (any & Hany & H).
    destruct any; [|discriminate]. by apply hasLegalMove_true.
Qed.

(** ** The evaluator *)

(** C7 (as amended). Whenever White is checkmated the evaluator returns
    -1000; whenever Black is checkmated and White is not, it returns +1000;
    in both cases whatever the material and positional terms are. *)
Theorem evaluateBoard_checkmate {num : Type} (ofInt ofTenths : Z → num)
    (add sub : num → num → num) (fuel : nat) (b : Board) :
  (isCheckmate fuel b white = Some true →
   evaluateBoard ofInt ofTenths add sub fuel b = Some (ofInt (-1000)))
  ∧ (isCheckmate fuel b white = Some false →
     isCheckmate fuel b black = Some true →
     evaluateBoard ofInt ofTenths add sub fuel b = Some (ofInt 1000)).
Proof.
  unfold evaluateBoard. split.
  - intros Hw. by rewrite Hw.
  - intros Hw Hb. by rewrite Hw, Hb.
Qed.

Lemma evaluateBoard_checkmate_witness :
  evaluateBoard (Z.mul 10) (λ k, k) Z.add Z.sub 20 doubleMate = Some (10 * -1000)
  ∧ evaluateBoard (Z.mul 10) (λ k, k) Z.add Z.sub 20 blackMate = Some (10 * 1000).
Proof.
  split.
  - refine (proj1 (evaluateBoard_checkmate (Z.mul 10) (λ k, k) Z.add Z.sub 20 doubleMate) _).
    vm_compute. reflexivity.
  - refine (proj2 (evaluateBoard_checkmate (Z.mul 10) (λ k, k) Z.add Z.sub 20 blackMate) _ _).
    + vm_compute. reflexivity.
    + vm_compute. reflexivity.
Defined.

(** C7, the claim as stated fails: on [doubleMate] Black is checkmated, yet
    the evaluator (scores counted in tenths) returns -1000, because White is
    checkmated too and is tested first. *)
Lemma evaluateBoard_double_mate :
  isCheckmate 20 doubleMate black = Some true
  ∧ isCheckmate 20 doubleMate white = Some true
  ∧ evaluateBoard (Z.mul 10) (λ k, k) Z.add Z.sub 20 doubleMate = Some (-10000).
Proof. split_and!; vm_compute; reflexivity. Qed.

(** ** Reachable positions *)

(** C10, a king captured in play: every ply of [kingHunt] is a move the
    generator offers to the side to move, White is not in check and not
    checkmated before its last move, and after Black's reply no white king
    is left on the board. *)
Theorem king_captured_in_play :
  ∃ before final,
    play 20 initialBoard (take 14 kingHunt) = Some before
    ∧ isCheck 20 before white = Some false
    ∧ isCheckmate 20 before white = Some false
    ∧ countKings before white = 1%nat
    ∧ play 20 before (drop 14 kingHunt) = Some final
    ∧ play 20 initialBoard kingHunt = Some final
    ∧ countKings final white = 0%nat
    ∧ countKings final black = 1%nat.
Proof.
  exists (default ∅ (play 20 initialBoard (take 14 kingHunt))),
         (default ∅ (play 20 initialBoard kingHunt)).
  split_and!; vm_compute; reflexivity.
Qed.

(** ** Castling *)

Lemma filterLegal_elem (fuel : nat) (b : Board) (fromRow fromCol : Z)
    (c : PieceColor) (rawMoves ms : list Position) :
  filterLegal fuel b fromRow fromCol c rawMoves = Some ms →
  ∀ m, m ∈ ms ↔
       m ∈ rawMoves ∧ wouldBeInCheck fuel b fromRow fromCol (row m) (col m) c = Some false.
Proof.
  revert ms. induction rawMoves as [|move rest IH]; intros ms; cbn [filterLegal].
  { intros [= <-] m. split; [by intros ?%elem_of_nil | by intros [?%elem_of_nil _]]. }
  intros H m.
  apply bind_Some in H as (w & Hw & H).
  apply bind_Some in H as (ms' & Hms & H).
  specialize (IH ms' Hms m). injection H as <-.
  destruct w.
  - rewrite IH, elem_of_cons. split; [by intros [? ?]; split; [right|]|].
    intros [[->|Hin] Hsafe]; [congruence | done].
  - rewrite !elem_of_cons, IH. split.
    + intros [->|[? ?]]; [by split; [left|] | by split; [right|]].
    + intros [[->|Hin] Hsafe]; [by left | by right].
Qed.

Lemma steps_kingMoves_col (b : Board) (pieceColor : PieceColor) (r c : Z) (m : Position) :
  m ∈ steps b pieceColor r c kingMoves → c - 1 ≤ col m ≤ c + 1.
Proof.
  unfold steps. intros (d & -> & Hd)%list_elem_of_fmap.
  apply list_elem_of_In, filter_In in Hd as [Hd _].
  apply list_elem_of_In in Hd. unfold kingMoves in Hd.
  cbn [col]. set_unfold. destruct Hd as [->|[->|[->|[->|[->|[->|[->|[->|[]]]]]]]]]; simpl; lia.
Qed.

Lemma castlingSafe_true (fuel : nat) (b : Board) (pieceColor : PieceColor)
    (r c dir : Z) :
  castlingSafe fuel b pieceColor r c dir = Some true ↔
  isCheck fuel b pieceColor = Some false
  ∧ wouldBeInCheck fuel b r c r (c + dir) pieceColor = Some false
  ∧ wouldBeInCheck fuel b r c r (c + 2 * dir) pieceColor = Some false.
Proof.
  unfold castlingSafe. split.
  - intros H. apply bind_Some in H as (chk & Hchk & H).
    destruct chk; [discriminate|].
    apply bind_Some in H as (w1 & Hw1 & H).
    destruct w1; [discriminate|].
    apply bind_Some in H as (w2 & Hw2 & H).
    destruct w2; [discriminate | split_and!; assumption].
  - intros (Hchk & Hw1 & Hw2).
    apply bind_Some. exists false. split; [exact Hchk|].
    apply bind_Some. exists false. split; [exact Hw1|].
    apply bind_Some. exists false. split; [exact Hw2 | reflexivity].
Qed.

(** Membership in the list of castling destinations the generator builds. *)
Lemma castlingMoves_elem (fuel : nat) (b : Board) (piece : ChessPiece)
    (r c : Z) (cs : list Position) (m : Position) :
  castlingMoves fuel b piece r c = Some cs →
  m ∈ cs ↔
    notMoved piece = true
    ∧ ((m = mkPos r (c + 2)
        ∧ castlingRook b (color piece) r 7 = true
        ∧ b !! (r, 5) = None ∧ b !! (r, 6) = None
        ∧ castlingSafe fuel b (color piece) r c 1 = Some true)
       ∨ (m = mkPos r (c - 2)
          ∧ castlingRook b (color piece) r 0 = true
          ∧ b !! (r, 1) = None ∧ b !! (r, 2) = None ∧ b !! (r, 3) = None
          ∧ castlingSafe fuel b (color piece) r c (-1) = Some true)).
Proof.
  unfold castlingMoves.
  destruct (notMoved piece).
  2:{ intros [= <-]. split; [by intros ?%elem_of_nil | by intros [? _]]. }
  intros H.
  apply bind_Some in H as (ks & Hks & H).
  apply bind_Some in H as (qs & Hqs & H).
  injection H as <-. rewrite elem_of_app.
  assert (m ∈ ks ↔ m = mkPos r (c + 2)
                   ∧ castlingRook b (color piece) r 7 = true
                   ∧ b !! (r, 5) = None ∧ b !! (r, 6) = None
                   ∧ castlingSafe fuel b (color piece) r c 1 = Some true) as ->.
  { match type of Hks with (if ?cond then _ else _) = _ => destruct cond eqn:Hcond end.
    - rewrite !andb_true_iff, !bool_decide_eq_true in Hcond.
      destruct Hcond as [[Hrook H5] H6].
      apply bind_Some in Hks as (ok & Hok & Hks). injection Hks as <-.
      destruct ok.
      + rewrite list_elem_of_singleton. split; [by intros -> | by intros [? _]].
      + split; [by intros ?%elem_of_nil|]. intros (_ & _ & _ & _ & ?). congruence.
    - injection Hks as <-. split; [by intros ?%elem_of_nil|].
      intros (_ & Hrook & H5 & H6 & _).
      rewrite Hrook, !bool_decide_eq_true_2 in Hcond by assumption. discriminate. }
  assert (m ∈ qs ↔ m = mkPos r (c - 2)
                   ∧ castlingRook b (color piece) r 0 = true
                   ∧ b !! (r, 1) = None ∧ b !! (r, 2) = None ∧ b !! (r, 3) = None
                   ∧ castlingSafe fuel b (color piece) r c (-1) = Some true) as ->.
  { match type of Hqs with (if ?cond then _ else _) = _ => destruct cond eqn:Hcond end.
    - rewrite !andb_true_iff, !bool_decide_eq_true in Hcond.
      destruct Hcond as [[[Hrook H1] H2] H3].
      apply bind_Some in Hqs as (ok & Hok & Hqs). injection Hqs as <-.
      destruct ok.
      + rewrite list_elem_of_singleton. split; [by intros -> | by intros [? _]].
      + split; [by intros ?%elem_of_nil|]. intros (_ & _ & _ & _ & _ & ?). congruence.
    - injection Hqs as <-. split; [by intros ?%elem_of_nil|].
      intros (_ & Hrook & H1 & H2 & H3 & _).
      rewrite Hrook, !bool_decide_eq_true_2 in Hcond by assumption. discriminate. }
  tauto.
Qed.

#[local] Opaque isCheck wouldBeInCheck castlingSafe castlingRook.

(** The generator offers a king the square two files to its right (left)
    exactly when the king is unmoved, column 7 (0) of its row holds an
    unmoved rook of its colour, columns 5 and 6 (1, 2 and 3) of the row are
    empty, [isCheck] is false, and [wouldBeInCheck] is false for the king's
    moves of one and two files in that direction. *)
Lemma castling_offered_iff (fuel : nat) (b : Board) (r c : Z)
    (piece : ChessPiece) (moves : list Position) :
  b !! (r, c) = Some piece →
  type piece = king →
  getPossibleMoves fuel b r c = Some moves →
  (mkPos r (c + 2) ∈ moves ↔
     notMoved piece = true
     ∧ castlingRook b (color piece) r 7 = true
     ∧ b !! (r, 5) = None ∧ b !! (r, 6) = None
     ∧ isCheck fuel b (color piece) = Some false
     ∧ wouldBeInCheck fuel b r c r (c + 1) (color piece) = Some false
     ∧ wouldBeInCheck fuel b r c r (c + 2) (color piece) = Some false)
  ∧ (mkPos r (c - 2) ∈ moves ↔
       notMoved piece = true
       ∧ castlingRook b (color piece) r 0 = true
       ∧ b !! (r, 1) = None ∧ b !! (r, 2) = None ∧ b !! (r, 3) = None
       ∧ isCheck fuel b (color piece) = Some false
       ∧ wouldBeInCheck fuel b r c r (c - 1) (color piece) = Some false
       ∧ wouldBeInCheck fuel b r c r (c - 2) (color piece) = Some false).
Proof.
  intros Hp Hking. unfold getPossibleMoves. rewrite Hp. intros H.
  apply bind_Some in H as (raw & Hraw & Hlegal).
  unfold getRawMoves in Hraw. rewrite Hp, Hking in Hraw.
  apply bind_Some in Hraw as (cs & Hcs & Hraw). injection Hraw as <-.
  pose proof (filterLegal_elem _ _ _ _ _ _ _ Hlegal) as Hmem.
  pose proof (castlingMoves_elem _ _ _ _ _ _ (mkPos r (c + 2)) Hcs) as Hk.
  pose proof (castlingMoves_elem _ _ _ _ _ _ (mkPos r (c - 2)) Hcs) as Hq.
  pose proof (castlingSafe_true fuel b (color piece) r c 1) as Hs1.
  pose proof (castlingSafe_true fuel b (color piece) r c (-1)) as Hs2.
  replace (c + 2 * 1) with (c + 2) in Hs1 by lia.
  replace (c + -1) with (c - 1) in Hs2 by lia.
  replace (c + 2 * -1) with (c - 2) in Hs2 by lia.
  split.
  - rewrite Hmem, elem_of_app, Hk, Hs1. cbn [row col]. split.
    + intros [[Hstep|(Hnm & [Hks|Hqs])] Hsafe].
      * apply steps_kingMoves_col in Hstep. cbn [col] in Hstep. lia.
      * destruct Hks as (_ & Hrook & H5 & H6 & Hchk & Hw1 & Hw2).
        exact (conj Hnm (conj Hrook (conj H5 (conj H6 (conj Hchk (conj Hw1 Hw2)))))).
      * destruct Hqs as [[= Hc] _]. lia.
    + intros (Hnm & Hrook & H5 & H6 & Hchk & Hw1 & Hw2).
      split; [|exact Hw2]. right. split; [exact Hnm|]. left.
      exact (conj eq_refl (conj Hrook (conj H5 (conj H6 (conj Hchk (conj Hw1 Hw2)))))).
  - rewrite Hmem, elem_of_app, Hq, Hs2. cbn [row col]. split.
    + intros [[Hstep|(Hnm & [Hks|Hqs])] Hsafe].
      * apply steps_kingMoves_col in Hstep. cbn [col] in Hstep. lia.
      * destruct Hks as [[= Hc] _]. lia.
      * destruct Hqs as (_ & Hrook & H1 & H2 & H3 & Hchk & Hw1 & Hw2).
        exact (conj Hnm (conj Hrook (conj H1 (conj H2 (conj H3 (conj Hchk (conj Hw1 Hw2))))))).
    + intros (Hnm & Hrook & H1 & H2 & H3 & Hchk & Hw1 & Hw2).
      split; [|exact Hw2]. right. split; [exact Hnm|]. right.
      exact (conj eq_refl (conj Hrook (conj H1 (conj H2 (conj H3 (conj Hchk (conj Hw1 Hw2))))))).
Qed.

(** C5 (as amended). For a king standing on file e (column 4), whenever the
    generator returns, its list holds the square two files towards the h-rook
    (a-rook) exactly under the condition of the claim: king and rook unmoved,
    the squares strictly between them empty, [isCheck] false for the king's
    colour, and neither the transit nor the destination square attacked in
    the simulated king moves. *)
Theorem castling_offered_on_file_e (fuel : nat) (b : Board) (r : Z)
    (piece : ChessPiece) (moves : list Position) :
  b !! (r, 4) = Some piece →
  type piece = king →
  getPossibleMoves fuel b r 4 = Some moves →
  (mkPos r 6 ∈ moves ↔ castlingClaimed fuel b piece r 4 7 1)
  ∧ (mkPos r 2 ∈ moves ↔ castlingClaimed fuel b piece r 4 0 (-1)).
Proof.
  intros Hp Hking Hmoves.
  destruct (castling_offered_iff fuel b r 4 piece moves Hp Hking Hmoves) as [Hk Hq].
  change (4 + 2) with 6 in Hk. change (4 + 1) with 5 in Hk.
  change (4 - 2) with 2 in Hq. change (4 - 1) with 3 in Hq.
  unfold castlingClaimed.
  change (4 + 2 * 1) with 6. change (4 + 1) with 5.
  change (4 + 2 * -1) with 2. change (4 + -1) with 3.
  change (Z.min 4 7) with 4. change (Z.max 4 7) with 7.
  change (Z.min 4 0) with 0. change (Z.max 4 0) with 4.
  split.
  - rewrite Hk. split.
    + intros (Hnm & Hrook & H5 & H6 & Hchk & Hw1 & Hw2).
      refine (conj Hnm (conj Hrook (conj _ (conj Hchk (conj Hw1 Hw2))))).
      intros c' Hc'.
      assert (c' = 5 ∨ c' = 6) as [-> | ->] by lia; [exact H5 | exact H6].
    + intros (Hnm & Hrook & Hbetween & Hchk & Hw1 & Hw2).
      refine (conj Hnm (conj Hrook (conj _ (conj _ (conj Hchk (conj Hw1 Hw2))))));
        apply Hbetween; lia.
  - rewrite Hq. split.
    + intros (Hnm & Hrook & H1 & H2 & H3 & Hchk & Hw1 & Hw2).
      refine (conj Hnm (conj Hrook (conj _ (conj Hchk (conj Hw1 Hw2))))).
      intros c' Hc'.
      assert (c' = 1 ∨ c' = 2 ∨ c' = 3) as [-> | [-> | ->]] by lia;
        [exact H1 | exact H2 | exact H3].
    + intros (Hnm & Hrook & Hbetween & Hchk & Hw1 & Hw2).
      refine (conj Hnm (conj Hrook (conj _ (conj _ (conj _ (conj Hchk (conj Hw1 Hw2)))))));
        apply Hbetween; lia.
Qed.

#[local] Transparent isCheck wouldBeInCheck castlingSafe castlingRook.

Lemma castling_offered_on_file_e_witness :
  (mkPos 7 6 ∈ [mkPos 7 3; mkPos 7 2]
   ↔ castlingClaimed 20 queensideBoard (mkPiece king white (Some false)) 7 4 7 1)
  ∧ (mkPos 7 2 ∈ [mkPos 7 3; mkPos 7 2]
     ↔ castlingClaimed 20 queensideBoard (mkPiece king white (Some false)) 7 4 0 (-1)).
Proof.
  apply (castling_offered_on_file_e 20 queensideBoard 7
           (mkPiece king white (Some false)) [mkPos 7 3; mkPos 7 2]).
  - vm_compute. reflexivity.
  - reflexivity.
  - vm_compute. reflexivity.
Defined.

(** C5, the claim as stated fails: on [offFileBoard] the unmoved king on d1
    is offered f1, two files towards the h-rook, although the knight on e1
    stands strictly between king and rook. *)
Lemma castling_over_occupied_square :
  ∃ piece moves,
    offFileBoard !! (7, 3) = Some piece
    ∧ type piece = king
    ∧ getPossibleMoves 20 offFileBoard 7 3 = Some moves
    ∧ mkPos 7 (3 + 2) ∈ moves
    ∧ ¬ castlingClaimed 20 offFileBoard piece 7 3 7 1.
Proof.
  exists (mkPiece king white (Some false)),
         [mkPos 6 2; mkPos 6 3; mkPos 6 4; mkPos 7 2; mkPos 7 5].
  split_and!.
  - vm_compute. reflexivity.
  - reflexivity.
  - vm_compute. reflexivity.
  - set_solver.
  - intros (_ & _ & Hbetween & _).
    specialize (Hbetween 4 ltac:(lia)). vm_compute in Hbetween. discriminate.
Qed.

(** * Further properties of the move generator *)

Lemma isEmpty_true (b : Board) (r c : Z) :
  isEmpty b r c = true ↔ isValidPosition r c = true ∧ b !! (r, c) = None.
Proof.
  unfold isEmpty. destruct (isValidPosition r c).
  - rewrite bool_decide_eq_true. split; [by intros ? | by intros [_ ?]].
  - split; [discriminate | by intros [? _]].
Qed.

Lemma isCapture_true (b : Board) (pieceColor : PieceColor) (r c : Z) :
  isCapture b pieceColor r c = true ↔
  isValidPosition r c = true ∧ ∃ q, b !! (r, c) = Some q ∧ color q ≠ pieceColor.
Proof.
  unfold isCapture. rewrite andb_true_iff.
  destruct (b !! (r, c)) as [q|].
  - rewrite negb_true_iff, bool_decide_eq_false. split.
    + intros [Hv Hq]. split; [exact Hv|]. by exists q.
    + intros [Hv (q' & [= <-] & Hq)]. by split.
  - split; [by intros [_ ?] | by intros [_ (q & ? & _)]].
Qed.

Lemma isEmptyOrCapture_true (b : Board) (pieceColor : PieceColor) (r c : Z) :
  isEmptyOrCapture b pieceColor r c = true ↔
  isValidPosition r c = true
  ∧ ∀ q, b !! (r, c) = Some q → color q ≠ pieceColor.
Proof.
  unfold isEmptyOrCapture. destruct (isValidPosition r c).
  - destruct (b !! (r, c)) as [q|].
    + rewrite negb_true_iff, bool_decide_eq_false. split.
      * intros Hq. split; [reflexivity|]. by intros q' [= <-].
      * intros [_ Hq]. by apply Hq.
    + split; [|reflexivity]. intros _. split; [reflexivity | discriminate].
  - split; [discriminate | by intros [? _]].
Qed.

(** What a generated destination is allowed to hold: nothing, or a piece of
    the other colour. *)
Definition freeOrHostile (b : Board) (pieceColor : PieceColor) (m : Position) : Prop :=
  ∀ q, b !! (row m, col m) = Some q → color q ≠ pieceColor.

Definition validPos (m : Position) : Prop :=
  isValidPosition (row m) (col m) = true.

Lemma slide_elem (fuel : nat) (b : Board) (pieceColor : PieceColor)
    (r c dr dc : Z) (ms : list Position) (m : Position) :
  slide fuel b pieceColor r c dr dc = Some ms →
  m ∈ ms → validPos m ∧ freeOrHostile b pieceColor m.
Proof.
  revert r c ms. induction fuel as [|fuel IH]; intros r c ms; [discriminate|].
  cbn [slide]. destruct (isValidPosition r c) eqn:Hv.
  2:{ intros [= <-] Hm. by apply elem_of_nil in Hm. }
  destruct (b !! (r, c)) as [q|] eqn:Hq.
  - case_bool_decide as Hc.
    + intros [= <-] Hm. by apply elem_of_nil in Hm.
    + intros [= <-] Hm. apply list_elem_of_singleton in Hm as ->.
      split; [exact Hv|]. unfold freeOrHostile. cbn [row col].
      rewrite Hq. by intros q' [= <-].
  - intros H Hm. apply bind_Some in H as (rest & Hrest & [= <-]).
    apply elem_of_cons in Hm as [-> | Hm].
    + split; [exact Hv|]. unfold freeOrHostile. cbn [row col].
      rewrite Hq. discriminate.
    + by eapply IH.
Qed.

Lemma slides_elem (fuel : nat) (b : Board) (pieceColor : PieceColor)
    (r c : Z) (dirs : list (Z * Z)) (ms : list Position) (m : Position) :
  slides fuel b pieceColor r c dirs = Some ms →
  m ∈ ms → validPos m ∧ freeOrHostile b pieceColor m.
Proof.
  revert ms. induction dirs as [|[dr dc] rest IH]; intros ms; cbn [slides].
  { intros [= <-] Hm. by apply elem_of_nil in Hm. }
  intros H Hm.
  apply bind_Some in H as (ms1 & H1 & H).
  apply bind_Some in H as (ms2 & H2 & [= <-]).
  apply elem_of_app in Hm as [Hm | Hm].
  - by eapply slide_elem.
  - by eapply IH.
Qed.

Lemma steps_elem (b : Board) (pieceColor : PieceColor) (r c : Z)
    (offsets : list (Z * Z)) (m : Position) :
  m ∈ steps b pieceColor r c offsets →
  validPos m ∧ freeOrHostile b pieceColor m
  ∧ ∃ d, d ∈ offsets ∧ m = mkPos (r + d.1) (c + d.2).
Proof.
  unfold steps. intros (d & -> & Hd)%list_elem_of_fmap.
  apply list_elem_of_In, filter_In in Hd as [Hd Hok].
  apply isEmptyOrCapture_true in Hok as [Hv Hfree].
  split; [exact Hv|]. split; [exact Hfree|].
  exists d. split; [by apply list_elem_of_In | reflexivity].
Qed.

(** The row direction in which a pawn of the colour advances. *)
Definition forward (c : PieceColor) : Z :=
  match c with white => -1 | black => 1 end.

(** The shape of a pawn's raw moves: straight ahead onto empty squares (two
    rows only for a pawn that has not moved, over an empty square), or one
    row ahead on an adjacent file onto a piece of the other colour. *)
Lemma pawnMoves_elem (b : Board) (piece : ChessPiece) (r c : Z) (m : Position) :
  m ∈ pawnMoves b piece r c →
  validPos m
  ∧ ((col m = c ∧ b !! (row m, col m) = None
      ∧ b !! (r + forward (color piece), c) = None
      ∧ (row m = r + forward (color piece)
         ∨ (row m = r + 2 * forward (color piece) ∧ notMoved piece = true)))
     ∨ ((col m = c - 1 ∨ col m = c + 1) ∧ row m = r + forward (color piece)
        ∧ ∃ q, b !! (row m, col m) = Some q ∧ color q ≠ color piece)).
Proof.
  intros Hm. unfold pawnMoves in Hm.
  change (match color piece with white => -1 | black => 1 end)
    with (forward (color piece)) in Hm.
  set (direction := forward (color piece)) in *.
  apply elem_of_app in Hm as [Hm | Hm].
  - destruct (isEmpty b (r + direction) c) eqn:H1;
      [|by apply elem_of_nil in Hm].
    apply isEmpty_true in H1 as [Hv1 Hn1].
    apply elem_of_cons in Hm as [-> | Hm].
    + split; [exact Hv1|]. left. cbn [row col]. by repeat split; try left.
    + destruct (notMoved piece) eqn:Hnm; cbn [andb] in Hm;
        [|by apply elem_of_nil in Hm].
      destruct (isEmpty b (r + 2 * direction) c) eqn:H2;
        [|by apply elem_of_nil in Hm].
      apply isEmpty_true in H2 as [Hv2 Hn2].
      apply list_elem_of_singleton in Hm as ->.
      split; [exact Hv2|]. left. cbn [row col].
      split; [reflexivity|]. split; [exact Hn2|]. split; [exact Hn1|].
      right. by split.
  - apply elem_of_app in Hm as [Hm | Hm].
    + destruct (isCapture b (color piece) (r + direction) (c - 1)) eqn:Hc;
        [|by apply elem_of_nil in Hm].
      apply isCapture_true in Hc as [Hv Hq].
      apply list_elem_of_singleton in Hm as ->.
      split; [exact Hv|]. right. cbn [row col].
      split; [by left|]. by split.
    + destruct (isCapture b (color piece) (r + direction) (c + 1)) eqn:Hc;
        [|by apply elem_of_nil in Hm].
      apply isCapture_true in Hc as [Hv Hq].
      apply list_elem_of_singleton in Hm as ->.
      split; [exact Hv|]. right. cbn [row col].
      split; [by right|]. by split.
Qed.

Lemma getPossibleMoves_raw (fuel : nat) (b : Board) (r c : Z) (piece : ChessPiece)
    (ms : list Position) (m : Position) :
  b !! (r, c) = Some piece →
  getPossibleMoves fuel b r c = Some ms →
  m ∈ ms →
  ∃ raw, getRawMoves fuel b r c = Some raw ∧ m ∈ raw
         ∧ wouldBeInCheck fuel b r c (row m) (col m) (color piece) = Some false.
Proof.
  intros Hp. unfold getPossibleMoves. rewrite Hp. intros H Hm.
  apply bind_Some in H as (raw & Hraw & Hlegal).
  apply (filterLegal_elem _ _ _ _ _ _ _ Hlegal) in Hm as [Hin Hsafe].
  exists raw. split; [exact Hraw|]. split; [exact Hin | exact Hsafe].
Qed.

(** Every raw move passes the bounds check, and is either a castling
    destination (same row, two files away) or a square that is empty or
    holds a piece of the other colour. *)
Lemma getRawMoves_elem (fuel : nat) (b : Board) (r c : Z) (piece : ChessPiece)
    (raw : list Position) (m : Position) :
  isValidPosition r c = true →
  b !! (r, c) = Some piece →
  getRawMoves fuel b r c = Some raw →
  m ∈ raw →
  validPos m
  ∧ ((type piece = king ∧ row m = r ∧ (col m = c + 2 ∨ col m = c - 2))
     ∨ freeOrHostile b (color piece) m).
Proof.
  intros Hv Hp. unfold getRawMoves. rewrite Hp.
  apply isValidPosition_true in Hv as [Hr Hc].
  destruct (type piece) eqn:Ht.
  - intros [= <-] Hm. apply pawnMoves_elem in Hm as [Hvm Hshape].
    split; [exact Hvm|]. right. intros q Hq.
    destruct Hshape as [(_ & Hnone & _) | (_ & _ & q' & Hq' & Hc')];
      congruence.
  - intros H Hm. destruct (slides_elem _ _ _ _ _ _ _ m H Hm) as [? ?].
    split; [done | by right].
  - intros [= <-] Hm. apply steps_elem in Hm as (? & ? & _).
    split; [done | by right].
  - intros H Hm. destruct (slides_elem _ _ _ _ _ _ _ m H Hm) as [? ?].
    split; [done | by right].
  - intros H Hm. destruct (slides_elem _ _ _ _ _ _ _ m H Hm) as [? ?].
    split; [done | by right].
  - intros H Hm. apply bind_Some in H as (cs & Hcs & [= <-]).
    apply elem_of_app in Hm as [Hm | Hm].
    { apply steps_elem in Hm as (? & ? & _). split; [done | by right]. }
    apply (castlingMoves_elem _ _ _ _ _ _ m Hcs) in Hm as [_ [Hk | Hq]].
    + destruct Hk as (-> & Hrook & H5 & H6 & _).
      assert (c ≤ 4) as Hc4.
      { destruct (decide (c = 5)) as [-> | ?]; [congruence|].
        destruct (decide (c = 6)) as [-> | ?]; [congruence|].
        destruct (decide (c = 7)) as [-> | ?]; [|lia].
        unfold castlingRook in Hrook. rewrite Hp, Ht in Hrook. discriminate. }
      split; [apply isValidPosition_true; cbn [row col]; lia|].
      left. cbn [row col]. split; [reflexivity|]. split; [reflexivity | by left].
    + destruct Hq as (-> & _).
      split; [apply isValidPosition_true; cbn [row col]; lia|].
      left. cbn [row col]. split; [reflexivity|]. split; [reflexivity | by right].
Qed.

(** X1. From an origin that passes the bounds check, every destination the
    generator returns passes it too: its row is within 0..7 and its column is
    at most 7 (nothing bounds the column from below). *)
Theorem getPossibleMoves_in_bounds (fuel : nat) (b : Board) (r c : Z)
    (ms : list Position) (m : Position) :
  isValidPosition r c = true →
  getPossibleMoves fuel b r c = Some ms →
  m ∈ ms →
  0 ≤ row m < 8 ∧ col m < 8.
Proof.
  intros Hv Hms Hm.
  destruct (b !! (r, c)) as [piece|] eqn:Hp.
  - destruct (getPossibleMoves_raw _ _ _ _ _ _ _ Hp Hms Hm) as (raw & Hraw & Hin & _).
    destruct (getRawMoves_elem _ _ _ _ _ _ _ Hv Hp Hraw Hin) as [Hvm _].
    by apply isValidPosition_true.
  - unfold getPossibleMoves in Hms. rewrite Hp in Hms.
    injection Hms as <-. by apply elem_of_nil in Hm.
Qed.

Lemma getPossibleMoves_in_bounds_witness :
  0 ≤ row (mkPos 6 (-1)) < 8 ∧ col (mkPos 6 (-1)) < 8.
Proof.
  apply (getPossibleMoves_in_bounds 20 initialBoard 7 1
           [mkPos 5 0; mkPos 5 2; mkPos 6 (-1)] (mkPos 6 (-1))).
  - reflexivity.
  - vm_compute. reflexivity.
  - apply list_elem_of_In. right. right. left. reflexivity.
Defined.

(** X2. A generated destination never holds a piece of the mover's own
    colour, castling destinations (a king's moves of two files) aside. *)
Theorem getPossibleMoves_no_self_capture (fuel : nat) (b : Board) (r c : Z)
    (piece : ChessPiece) (ms : list Position) (m : Position) :
  isValidPosition r c = true →
  b !! (r, c) = Some piece →
  getPossibleMoves fuel b r c = Some ms →
  m ∈ ms →
  (type piece = king → col m ≠ c + 2 ∧ col m ≠ c - 2) →
  ∀ q, b !! (row m, col m) = Some q → color q ≠ color piece.
Proof.
  intros Hv Hp Hms Hm Hstep.
  destruct (getPossibleMoves_raw _ _ _ _ _ _ _ Hp Hms Hm) as (raw & Hraw & Hin & _).
  destruct (getRawMoves_elem _ _ _ _ _ _ _ Hv Hp Hraw Hin) as [_ [Hcastle | Hfree]].
  - destruct Hcastle as (Hk & _ & Hcol). destruct (Hstep Hk) as [H1 H2].
    destruct Hcol; contradiction.
  - exact Hfree.
Qed.

Lemma getPossibleMoves_no_self_capture_witness :
  color (mkPiece king black (Some true)) ≠ color (mkPiece knight white None).
Proof.
  apply (getPossibleMoves_no_self_capture 20 blackMate 1 5
           (mkPiece knight white None)
           [mkPos 0 3; mkPos 0 7; mkPos 2 3; mkPos 2 7; mkPos 3 4; mkPos 3 6]
           (mkPos 0 7)).
  - reflexivity.
  - vm_compute. reflexivity.
  - vm_compute. reflexivity.
  - apply list_elem_of_In. right. left. reflexivity.
  - intros [=].
  - vm_compute. reflexivity.
Defined.

(** X3. A pawn's generated moves: straight ahead onto an empty square, by
    one row, or by two rows over an empty square when it has not moved; or
    one row ahead onto an adjacent file, and then only onto a piece of the
    other colour (so never en passant).  "Ahead" is towards row 0 for White
    and towards row 7 for Black. *)
Theorem getPossibleMoves_pawn (fuel : nat) (b : Board) (r c : Z)
    (piece : ChessPiece) (ms : list Position) (m : Position) :
  b !! (r, c) = Some piece →
  type piece = pawn →
  getPossibleMoves fuel b r c = Some ms →
  m ∈ ms →
  (col m = c ∧ b !! (row m, col m) = None
   ∧ b !! (r + forward (color piece), c) = None
   ∧ (row m = r + forward (color piece)
      ∨ (row m = r + 2 * forward (color piece) ∧ notMoved piece = true)))
  ∨ ((col m = c - 1 ∨ col m = c + 1) ∧ row m = r + forward (color piece)
     ∧ ∃ q, b !! (row m, col m) = Some q ∧ color q ≠ color piece).
Proof.
  intros Hp Ht Hms Hm.
  destruct (getPossibleMoves_raw _ _ _ _ _ _ _ Hp Hms Hm) as (raw & Hraw & Hin & _).
  unfold getRawMoves in Hraw. rewrite Hp, Ht in Hraw. injection Hraw as <-.
  by apply pawnMoves_elem in Hin as [_ Hshape].
Qed.

Lemma getPossibleMoves_pawn_witness :
  (col (mkPos 4 4) = 4 ∧ initialBoard !! (row (mkPos 4 4), col (mkPos 4 4)) = None
   ∧ initialBoard !! (6 + forward white, 4) = None
   ∧ (row (mkPos 4 4) = 6 + forward white
      ∨ (row (mkPos 4 4) = 6 + 2 * forward white
         ∧ notMoved (mkPiece pawn white (Some false)) = true)))
  ∨ ((col (mkPos 4 4) = 4 - 1 ∨ col (mkPos 4 4) = 4 + 1)
     ∧ row (mkPos 4 4) = 6 + forward white
     ∧ ∃ q, initialBoard !! (row (mkPos 4 4), col (mkPos 4 4)) = Some q
            ∧ color q ≠ white).
Proof.
  apply (getPossibleMoves_pawn 20 initialBoard 6 4 (mkPiece pawn white (Some false))
           [mkPos 5 4; mkPos 4 4] (mkPos 4 4)).
  - vm_compute. reflexivity.
  - reflexivity.
  - vm_compute. reflexivity.
  - apply list_elem_of_In. right. left. reflexivity.
Defined.

(** * Further properties of the attack detector *)

Lemma attackRays_false (fuel : nat) (b : Board) (kingColor : PieceColor)
    (kingRow kingCol : Z) (dirs : list (Z * Z * list PieceType)) :
  attackRays fuel b kingColor kingRow kingCol dirs = Some false →
  ∀ dr dc pieces, (dr, dc, pieces) ∈ dirs →
    attackRay fuel b kingColor pieces (kingRow + dr) (kingCol + dc) dr dc = Some false.
Proof.
  induction dirs as [|[[dr' dc'] pieces'] rest IH]; cbn [attackRays].
  { intros _ dr dc pieces Hin. by apply elem_of_nil in Hin. }
  intros H dr dc pieces Hin.
  apply bind_Some in H as (hit & Hhit & H).
  destruct hit; [discriminate|].
  apply elem_of_cons in Hin as [[= -> -> ->] | Hin]; [exact Hhit|].
  by apply IH.
Qed.

Lemma attackRays_returns (fuel : nat) (b : Board) (kingColor : PieceColor)
    (kingRow kingCol : Z) (dirs : list (Z * Z * list PieceType)) :
  (∀ dr dc pieces, (dr, dc, pieces) ∈ dirs →
     is_Some (attackRay fuel b kingColor pieces (kingRow + dr) (kingCol + dc) dr dc)) →
  is_Some (attackRays fuel b kingColor kingRow kingCol dirs).
Proof.
  induction dirs as [|[[dr dc] pieces] rest IH]; cbn [attackRays]; intros H.
  { by exists false. }
  destruct (H dr dc pieces) as [hit Hhit]; [by left|].
  rewrite Hhit. cbn. destruct hit; [by exists true|].
  apply IH. intros dr' dc' pieces' Hin. apply H. by right.
Qed.

(** A ray that changes row leaves the eight rows within eight steps. *)
Lemma attackRay_down_returns (b : Board) (kingColor : PieceColor)
    (pieces : list PieceType) (dc : Z) (fuel : nat) (r c : Z) :
  (0 < fuel)%nat → 8 - r < Z.of_nat fuel →
  is_Some (attackRay fuel b kingColor pieces r c 1 dc).
Proof.
  revert r c. induction fuel as [|fuel IH]; intros r c Hpos Hr; [lia|].
  cbn [attackRay]. destruct (isValidPosition r c) eqn:Hv; [|by eexists].
  destruct (b !! (r, c)); [by eexists|].
  apply isValidPosition_true in Hv. apply IH; lia.
Qed.

Lemma attackRay_up_returns (b : Board) (kingColor : PieceColor)
    (pieces : list PieceType) (dc : Z) (fuel : nat) (r c : Z) :
  (0 < fuel)%nat → r + 1 < Z.of_nat fuel →
  is_Some (attackRay fuel b kingColor pieces r c (-1) dc).
Proof.
  revert r c. induction fuel as [|fuel IH]; intros r c Hpos Hr; [lia|].
  cbn [attackRay]. destruct (isValidPosition r c) eqn:Hv; [|by eexists].
  destruct (b !! (r, c)); [by eexists|].
  apply isValidPosition_true in Hv. apply IH; lia.
Qed.

(** The rightward ray stops at column 8. *)
Lemma attackRay_right_returns (b : Board) (kingColor : PieceColor)
    (pieces : list PieceType) (fuel : nat) (r c : Z) :
  (0 < fuel)%nat → 8 - c < Z.of_nat fuel →
  is_Some (attackRay fuel b kingColor pieces r c 0 1).
Proof.
  revert c. induction fuel as [|fuel IH]; intros c Hpos Hc; [lia|].
  cbn [attackRay]. destruct (isValidPosition r c) eqn:Hv; [|by eexists].
  destruct (b !! (r, c)); [by eexists|].
  apply isValidPosition_true in Hv. rewrite Z.add_0_r. apply IH; lia.
Qed.

(** The leftward ray stops only at a piece. *)
Lemma attackRay_left_returns (b : Board) (kingColor : PieceColor)
    (pieces : list PieceType) (fuel : nat) (r c c' : Z) (p : ChessPiece) :
  b !! (r, c') = Some p → c' ≤ c → c - c' < Z.of_nat fuel →
  is_Some (attackRay fuel b kingColor pieces r c 0 (-1)).
Proof.
  intros Hp. revert c. induction fuel as [|fuel IH]; intros c Hle Hc; [lia|].
  cbn [attackRay]. destruct (isValidPosition r c) eqn:Hv; [|by eexists].
  destruct (b !! (r, c)) eqn:Hcell; [by eexists|].
  rewrite Z.add_0_r. apply IH; [|lia].
  destruct (decide (c' = c)) as [-> | ?]; [congruence | lia].
Qed.

(** X4. On a square of the board whose row holds some piece to its left, the
    attack detector returns, and a budget of nine iterations per ray (eight
    squares and the exit test) is enough for every larger budget to give the
    same answer. *)
Theorem isKingUnderAttack_returns (b : Board) (kingRow kingCol : Z)
    (kingColor : PieceColor) (c' : Z) (p : ChessPiece) :
  onGrid (kingRow, kingCol) →
  0 ≤ c' < kingCol →
  b !! (kingRow, c') = Some p →
  ∃ v, ∀ fuel, (9 ≤ fuel)%nat →
       isKingUnderAttack fuel b kingRow kingCol kingColor = Some v.
Proof.
  intros [Hr Hc] Hc' Hp. cbn [fst snd] in Hr, Hc.
  assert (is_Some (isKingUnderAttack 9 b kingRow kingCol kingColor)) as [v Hv].
  { unfold isKingUnderAttack.
    destruct (contactAttack b kingRow kingCol kingColor); [by eexists|].
    apply attackRays_returns. intros dr dc pieces Hin.
    unfold attackDirections, rookDirections, bishopDirections in Hin.
    cbn [map app] in Hin.
    repeat (apply elem_of_cons in Hin as [[= -> -> ->] | Hin]);
      [ apply attackRay_up_returns; lia
      | apply attackRay_down_returns; lia
      | rewrite Z.add_0_r; apply (attackRay_left_returns _ _ _ _ _ _ c' p Hp); lia
      | apply attackRay_right_returns; lia
      | apply attackRay_up_returns; lia
      | apply attackRay_up_returns; lia
      | apply attackRay_down_returns; lia
      | apply attackRay_down_returns; lia
      | by apply elem_of_nil in Hin ]. }
  exists v. intros fuel Hfuel.
  by apply (isKingUnderAttack_mono 9 fuel).
Qed.

Lemma isKingUnderAttack_returns_witness :
  ∃ v, ∀ fuel, (9 ≤ fuel)%nat →
       isKingUnderAttack fuel initialBoard 7 4 white = Some v.
Proof.
  apply (isKingUnderAttack_returns initialBoard 7 4 white 3
           (mkPiece queen white None)).
  - split; simpl; lia.
  - lia.
  - vm_compute. reflexivity.
Defined.

(** An answer "not attacked" means that the leftward scan came back. *)
Lemma isKingUnderAttack_false_left_ray (b : Board) (kingRow kingCol : Z)
    (kingColor : PieceColor) (fuel : nat) :
  isKingUnderAttack fuel b kingRow kingCol kingColor = Some false →
  attackRay fuel b kingColor [rook; queen] (kingRow + 0) (kingCol + -1) 0 (-1)
  = Some false.
Proof.
  unfold isKingUnderAttack.
  destruct (contactAttack b kingRow kingCol kingColor); [discriminate|].
  intros Hfalse.
  apply (attackRays_false _ _ _ _ _ _ Hfalse 0 (-1) [rook; queen]).
  unfold attackDirections, rookDirections. cbn [map app].
  apply list_elem_of_In. right. right. left. reflexivity.
Qed.

(** X5. On a square within the eight rows whose row holds no piece to its
    left, the attack detector never answers "not attacked": it either finds
    an attack before its leftward scan or does not return. *)
Theorem isKingUnderAttack_open_left_not_false (b : Board) (kingRow kingCol : Z)
    (kingColor : PieceColor) (fuel : nat) :
  0 ≤ kingRow < 8 →
  kingCol ≤ 8 →
  openLeft b kingRow (kingCol - 1) →
  isKingUnderAttack fuel b kingRow kingCol kingColor ≠ Some false.
Proof.
  intros Hr Hc Hopen Hfalse.
  apply isKingUnderAttack_false_left_ray in Hfalse.
  rewrite attackRay_left_diverges in Hfalse.
  - discriminate Hfalse.
  - lia.
  - lia.
  - rewrite Z.add_0_r. intros k q Hk Hrow.
    specialize (Hopen k q Hk Hrow). lia.
Qed.

Lemma isKingUnderAttack_open_left_not_false_witness :
  isKingUnderAttack 50 initialBoard 4 4 white ≠ Some false.
Proof.
  apply (isKingUnderAttack_open_left_not_false initialBoard 4 4 white 50).
  - lia.
  - lia.
  - apply (bool_decide_unpack _). vm_compute. exact I.
Defined.

Lemma slides_stuck (fuel : nat) (b : Board) (pieceColor : PieceColor)
    (r c : Z) (dirs : list (Z * Z)) (dr dc : Z) :
  (dr, dc) ∈ dirs →
  slide fuel b pieceColor (r + dr) (c + dc) dr dc = None →
  slides fuel b pieceColor r c dirs = None.
Proof.
  intros Hin Hnone. induction dirs as [|[dr' dc'] rest IH]; cbn [slides].
  { by apply elem_of_nil in Hin. }
  apply elem_of_cons in Hin as [[= <- <-] | Hin].
  - by rewrite Hnone.
  - rewrite (IH Hin). by destruct (slide fuel b pieceColor _ _ dr' dc').
Qed.

(** X6. For a rook or a queen standing within the eight rows with no piece
    to its left on its row, the generator does not return: its leftward ray
    runs on past column 0. *)
Theorem getPossibleMoves_open_left_diverges (b : Board) (r c : Z)
    (piece : ChessPiece) :
  0 ≤ r < 8 →
  c ≤ 8 →
  b !! (r, c) = Some piece →
  type piece = rook ∨ type piece = queen →
  openLeft b r (c - 1) →
  ∀ fuel, getPossibleMoves fuel b r c = None.
Proof.
  intros Hr Hc Hp Ht Hopen fuel.
  assert (slide fuel b (color piece) (r + 0) (c + -1) 0 (-1) = None) as Hleft.
  { apply slide_left_diverges; [lia | lia |].
    rewrite Z.add_0_r. intros k q Hk Hrow.
    specialize (Hopen k q Hk Hrow). lia. }
  unfold getPossibleMoves. rewrite Hp.
  replace (getRawMoves fuel b r c) with (@None (list Position)); [reflexivity|].
  unfold getRawMoves. rewrite Hp. symmetry.
  destruct Ht as [-> | ->];
    apply (slides_stuck _ _ _ _ _ _ 0 (-1)); try exact Hleft;
    unfold queenDirections, rookDirections; cbn [app];
    apply list_elem_of_In; right; right; left; reflexivity.
Qed.

Lemma getPossibleMoves_open_left_diverges_witness :
  getPossibleMoves 1000 initialBoard 7 0 = None.
Proof.
  apply (getPossibleMoves_open_left_diverges initialBoard 7 0
           (mkPiece rook white (Some false))).
  - lia.
  - lia.
  - vm_compute. reflexivity.
  - left. reflexivity.
  - apply (bool_decide_unpack _). vm_compute. exact I.
Defined.

(** * Further properties of the move executor *)






(** * The legality filter and the executor agree *)

(** The board on which [wouldBeInCheck] runs the attack detector. *)
Definition simulated (b : Board) (fromRow fromCol toRow toCol : Z) : Board :=
  setCell (setCell (jsonClone b) (toRow, toCol) (jsonClone b !! (fromRow, fromCol)))
          (fromRow, fromCol) None.

(** The square [wouldBeInCheck] takes for the king's. *)
Definition kingSquare (t : Board) (toRow toCol : Z) (c : PieceColor) : Z * Z :=
  match t !! (toRow, toCol) with
  | Some (mkPiece king _ _) => (toRow, toCol)
  | _ => findKing t c
  end.

(** Two pieces the attack detector cannot tell apart when it looks for
    attackers of colour-[c] squares: same colour, same type unless they are
    of colour [c] themselves, and kings together. *)
Definition pieceAlike (c : PieceColor) (p q : ChessPiece) : Prop :=
  color p = color q
  ∧ (color p ≠ c → type p = type q)
  ∧ (type p = king ↔ type q = king).

Definition attackAlike (c : PieceColor) (b1 b2 : Board) : Prop :=
  ∀ k, option_Forall2 (pieceAlike c) (b1 !! k) (b2 !! k).

Lemma wouldBeInCheck_unfold (fuel : nat) (b : Board)
    (fromRow fromCol toRow toCol : Z) (c : PieceColor) :
  wouldBeInCheck fuel b fromRow fromCol toRow toCol c
  = isKingUnderAttack fuel (simulated b fromRow fromCol toRow toCol)
      (kingSquare (simulated b fromRow fromCol toRow toCol) toRow toCol c).1
      (kingSquare (simulated b fromRow fromCol toRow toCol) toRow toCol c).2 c.
Proof. reflexivity. Qed.

Lemma existsb_agree {A : Type} (f g : A → bool) (l : list A) :
  (∀ x, f x = g x) → existsb f l = existsb g l.
Proof. intros H. induction l as [|x l IH]; cbn; [reflexivity|]. by rewrite H, IH. Qed.

Lemma find_agree {A : Type} (f g : A → bool) (l : list A) :
  (∀ x, f x = g x) → find f l = find g l.
Proof. intros H. induction l as [|x l IH]; cbn; [reflexivity|]. by rewrite H, IH. Qed.

Lemma hostileAt_alike (c : PieceColor) (b1 b2 : Board) (r col' : Z) (t : PieceType) :
  attackAlike c b1 b2 → hostileAt b1 r col' t c = hostileAt b2 r col' t c.
Proof.
  intros H. unfold hostileAt.
  destruct (H (r, col')) as [p q (Hc & Ht & _)|]; [|reflexivity].
  rewrite <- Hc. destruct (decide (color p = c)) as [Heq | Hne].
  - rewrite (bool_decide_eq_true_2 _ Heq). cbn. by rewrite !andb_false_r.
  - by rewrite (Ht Hne).
Qed.

Lemma attackRay_alike (c : PieceColor) (b1 b2 : Board) (fuel : nat)
    (pieces : list PieceType) (r col' dr dc : Z) :
  attackAlike c b1 b2 →
  attackRay fuel b1 c pieces r col' dr dc = attackRay fuel b2 c pieces r col' dr dc.
Proof.
  intros H. revert r col'. induction fuel as [|fuel IH]; intros r col'; [reflexivity|].
  cbn [attackRay]. destruct (isValidPosition r col'); [|reflexivity].
  destruct (H (r, col')) as [p q (Hc & Ht & _)|]; [|apply IH].
  rewrite <- Hc. destruct (decide (color p = c)) as [Heq | Hne].
  - by rewrite (bool_decide_eq_true_2 _ Heq).
  - by rewrite (Ht Hne).
Qed.

Lemma isKingUnderAttack_alike (c : PieceColor) (b1 b2 : Board) (fuel : nat)
    (kingRow kingCol : Z) :
  attackAlike c b1 b2 →
  isKingUnderAttack fuel b1 kingRow kingCol c = isKingUnderAttack fuel b2 kingRow kingCol c.
Proof.
  intros H. unfold isKingUnderAttack.
  assert (contactAttack b1 kingRow kingCol c = contactAttack b2 kingRow kingCol c) as ->.
  { unfold contactAttack.
    rewrite !(hostileAt_alike c b1 b2) by exact H.
    rewrite (existsb_agree _ (λ d, isValidPosition (kingRow + d.1) (kingCol + d.2)
               && hostileAt b2 (kingRow + d.1) (kingCol + d.2) knight c) knightMoves)
      by (intros d; by rewrite (hostileAt_alike c b1 b2)).
    rewrite (existsb_agree _ (λ d, isValidPosition (kingRow + d.1) (kingCol + d.2)
               && hostileAt b2 (kingRow + d.1) (kingCol + d.2) king c) kingMoves)
      by (intros d; by rewrite (hostileAt_alike c b1 b2)).
    reflexivity. }
  destruct (contactAttack b2 kingRow kingCol c); [reflexivity|].
  induction attackDirections as [|[[dr dc] pieces] rest IH]; cbn [attackRays];
    [reflexivity|].
  by rewrite (attackRay_alike c b1 b2), IH.
Qed.

Lemma findKing_alike (c : PieceColor) (b1 b2 : Board) :
  attackAlike c b1 b2 → findKing b1 c = findKing b2 c.
Proof.
  intros H. unfold findKing.
  rewrite (find_agree (isKingOf b1 c) (isKingOf b2 c)); [reflexivity|].
  intros k. unfold isKingOf.
  destruct (H k) as [p q (Hc & _ & Hk)|]; [|reflexivity].
  rewrite <- Hc. f_equal. apply bool_decide_ext. exact Hk.
Qed.

Lemma elem_of_squares (k : Z * Z) : k ∈ squares ↔ onGrid k.
Proof.
  split.
  - assert (Forall onGrid squares) as Hall
      by (apply (bool_decide_unpack _); vm_compute; exact I).
    intros Hin. by apply (proj1 (Forall_forall _ _) Hall).
  - destruct k as [r c]. intros [Hr Hc]. cbn [fst snd] in Hr, Hc.
    assert (r = 0 ∨ r = 1 ∨ r = 2 ∨ r = 3 ∨ r = 4 ∨ r = 5 ∨ r = 6 ∨ r = 7)
      as Hrs by lia.
    assert (c = 0 ∨ c = 1 ∨ c = 2 ∨ c = 3 ∨ c = 4 ∨ c = 5 ∨ c = 6 ∨ c = 7)
      as Hcs by lia.
    destruct Hrs as [->|[->|[->|[->|[->|[->|[->| ->]]]]]]];
      destruct Hcs as [->|[->|[->|[->|[->|[->|[->| ->]]]]]]];
      apply (bool_decide_unpack _); vm_compute; exact I.
Qed.

(** The king search returns a square that holds the only king of the colour
    on the grid. *)
Lemma findKing_unique (b : Board) (c : PieceColor) (k : Z * Z) :
  onGrid k →
  isKingOf b c k = true →
  (∀ k', onGrid k' → isKingOf b c k' = true → k' = k) →
  findKing b c = k.
Proof.
  intros Hk Hking Huniq. unfold findKing.
  destruct (find (isKingOf b c) squares) as [k'|] eqn:Hfind.
  - apply find_some in Hfind as [Hin Hk'].
    apply Huniq; [|exact Hk'].
    by apply elem_of_squares, list_elem_of_In.
  - exfalso.
    assert (isKingOf b c k = false) as Hno.
    { apply (find_none _ _ Hfind k). by apply list_elem_of_In, elem_of_squares. }
    congruence.
Qed.

Lemma flagged_type (piece : ChessPiece) : type (flagged piece) = type piece.
Proof. unfold flagged. by destruct (_ || _). Qed.

Lemma flagged_color (piece : ChessPiece) : color (flagged piece) = color piece.
Proof. unfold flagged. by destruct (_ || _). Qed.

Lemma promoted_king (piece : ChessPiece) (toRow : Z) (promotionPiece : option PieceType) :
  promotionPiece ≠ Some king →
  type (promoted piece toRow promotionPiece) = king ↔ type piece = king.
Proof.
  intros Hpromo. unfold promoted.
  destruct (bool_decide (type piece = pawn) && _) eqn:Hcond; [|reflexivity].
  apply andb_true_iff in Hcond as [Hpawn _]. apply bool_decide_eq_true in Hpawn.
  cbn [type]. rewrite Hpawn.
  destruct promotionPiece as [t|]; cbn; [|by split].
  split; [|discriminate]. intros ->. contradiction.
Qed.

(** A move that is not a king's move of two files: the executor only clones
    the board, puts the piece on the destination and clears the origin. *)
Lemma movePiece_plain_move (b : Board) (fromRow fromCol toRow toCol : Z)
    (promotionPiece : option PieceType) (piece : ChessPiece) :
  jsonClone b !! (fromRow, fromCol) = Some piece →
  (type piece = king → Z.abs (fromCol - toCol) ≠ 2) →
  movePiece b fromRow fromCol toRow toCol promotionPiece
  = setCell (setCell (jsonClone b) (toRow, toCol)
               (Some (flagged (promoted piece toRow promotionPiece))))
            (fromRow, fromCol) None.
Proof.
  intros Hp Hplain. unfold movePiece. rewrite Hp.
  destruct (bool_decide (type piece = king) && bool_decide (Z.abs (fromCol - toCol) = 2))
    eqn:Hcastle; [|reflexivity].
  apply andb_true_iff in Hcastle as [Hking Habs].
  apply bool_decide_eq_true in Hking. apply bool_decide_eq_true in Habs.
  by destruct (Hplain Hking).
Qed.

Lemma simulated_alike (b : Board) (fromRow fromCol toRow toCol : Z)
    (promotionPiece : option PieceType) (piece : ChessPiece) :
  jsonClone b !! (fromRow, fromCol) = Some piece →
  promotionPiece ≠ Some king →
  attackAlike (color piece)
    (simulated b fromRow fromCol toRow toCol)
    (setCell (setCell (jsonClone b) (toRow, toCol)
                (Some (flagged (promoted piece toRow promotionPiece))))
             (fromRow, fromCol) None).
Proof.
  intros Hp Hpromo k. unfold simulated. rewrite Hp, !lookup_setCell.
  case_decide; [constructor|].
  case_decide.
  - constructor. split; [|split].
    + by rewrite flagged_color, promoted_color.
    + intros Hne. by destruct Hne.
    + by rewrite flagged_type, promoted_king.
  - destruct (jsonClone b !! k) as [q|]; constructor.
    split; [reflexivity|]. split; [by intros _ | reflexivity].
Qed.

(** X10. A generated move that is not a castling move leaves the mover out
    of check on the board the executor returns: [isCheck] answers false there,
    with the very budget with which the generator returned.  For a king's
    move the king must be the only king of its colour on the grid; the
    promotion type, if given, must not be king. *)
Theorem legal_move_keeps_king_safe (fuel : nat) (b : Board) (r c : Z)
    (piece : ChessPiece) (ms : list Position) (m : Position)
    (promotionPiece : option PieceType) :
  onGrid (r, c) →
  b !! (r, c) = Some piece →
  getPossibleMoves fuel b r c = Some ms →
  m ∈ ms →
  promotionPiece ≠ Some king →
  (type piece = king →
   Z.abs (c - col m) ≠ 2
   ∧ ∀ k, onGrid k → isKingOf b (color piece) k = true → k = (r, c)) →
  isCheck fuel (movePiece b r c (row m) (col m) promotionPiece) (color piece)
  = Some false.
Proof.
  intros Hgrid Hp Hms Hm Hpromo Hking.
  assert (jsonClone b !! (r, c) = Some piece) as Hcl
    by (by rewrite lookup_jsonClone, decide_True).
  assert (isValidPosition r c = true) as Hv.
  { destruct Hgrid as [? ?]. apply isValidPosition_true. cbn [fst snd] in *. lia. }
  destruct (getPossibleMoves_raw _ _ _ _ _ _ _ Hp Hms Hm) as (raw & Hraw & Hin & Hsafe).
  destruct (getRawMoves_elem _ _ _ _ _ _ _ Hv Hp Hraw Hin) as [Hvm _].
  apply isValidPosition_true in Hvm as [Hrow Hcol].
  rewrite wouldBeInCheck_unfold in Hsafe.
  rewrite (movePiece_plain_move b r c (row m) (col m) promotionPiece piece Hcl)
    by (intros Hk; by destruct (Hking Hk)).
  pose proof (simulated_alike b r c (row m) (col m) promotionPiece piece Hcl Hpromo)
    as Halike.
  set (T := simulated b r c (row m) (col m)) in *.
  set (R := setCell _ (r, c) None) in *.
  unfold isCheck.
  rewrite <- (findKing_alike _ _ _ Halike).
  rewrite <- (isKingUnderAttack_alike _ _ _ fuel _ _ Halike).
  replace (findKing T (color piece)) with (kingSquare T (row m) (col m) (color piece));
    [exact Hsafe|].
  unfold kingSquare.
  destruct (T !! (row m, col m)) as [[t pc hm]|] eqn:Hto; [|reflexivity].
  destruct t; try reflexivity.
  (* the moved piece is a king standing on the destination *)
  assert (kingSquare T (row m) (col m) (color piece) = (row m, col m)) as Hks
    by (unfold kingSquare; by rewrite Hto).
  rewrite Hks in Hsafe. cbn [fst snd] in Hsafe.
  subst T. unfold simulated in Hto. rewrite Hcl, !lookup_setCell in Hto.
  case_decide as Hne; [discriminate|].
  rewrite decide_True in Hto by reflexivity. injection Hto as Hpiece.
  assert (type piece = king) as Hk by (by rewrite Hpiece).
  destruct (Hking Hk) as [_ Huniq].
  assert (0 ≤ col m) as Hcol0.
  { destruct (decide (0 ≤ col m)) as [|Hneg]; [assumption|]. exfalso.
    apply isKingUnderAttack_false_left_ray in Hsafe.
    rewrite attackRay_left_diverges in Hsafe; [discriminate Hsafe | lia | lia |].
    rewrite Z.add_0_r.
    intros k q Hkq Hkrow. unfold simulated in Hkq.
    rewrite Hcl, !lookup_setCell in Hkq.
    case_decide; [discriminate|].
    case_decide as Hk2; [subst k; cbn [snd]; lia|].
    rewrite lookup_jsonClone in Hkq. case_decide as Hon; [|discriminate].
    destruct Hon as [_ ?]. lia. }
  symmetry. apply findKing_unique.
  - split; cbn [fst snd]; lia.
  - unfold isKingOf, simulated. rewrite Hcl, !lookup_setCell.
    rewrite decide_False, decide_True by done.
    rewrite Hpiece. cbn [type color].
    by rewrite !bool_decide_eq_true_2.
  - intros k' Hon' Hk'. unfold isKingOf, simulated in Hk'.
    rewrite Hcl, !lookup_setCell in Hk'.
    case_decide as H1; [discriminate|].
    case_decide as H2; [done|].
    rewrite lookup_jsonClone, decide_True in Hk' by done.
    destruct H1. symmetry. by apply Huniq.
Qed.

(** The position after 1. e4. *)
Definition afterE4 : Board := movePiece initialBoard 6 4 4 4 None.

Lemma legal_move_keeps_king_safe_witness :
  isCheck 20 (movePiece afterE4 7 4 (row (mkPos 6 4)) (col (mkPos 6 4)) None)
    (color (mkPiece king white (Some false)))
  = Some false.
Proof.
  apply (legal_move_keeps_king_safe 20 afterE4 7 4 (mkPiece king white (Some false))
           [mkPos 6 4] (mkPos 6 4) None).
  - split; simpl; lia.
  - vm_compute. reflexivity.
  - vm_compute. reflexivity.
  - apply list_elem_of_In. left. reflexivity.
  - discriminate.
  - intros _. split; [cbn; lia|].
    assert (Forall (λ k, isKingOf afterE4 white k = true → k = (7, 4)) squares)
      as Hall by (apply (bool_decide_unpack _); vm_compute; exact I).
    intros k Hk%elem_of_squares.
    exact (proj1 (Forall_forall _ _) Hall k Hk).
Defined.

Lemma existsb_false_elem {A : Type} (f : A → bool) (l : list A) (x : A) :
  existsb f l = false → x ∈ l → f x = false.
Proof.
  intros H Hin. destruct (f x) eqn:Hfx; [|reflexivity].
  assert (existsb f l = true) as Ht.
  { apply existsb_exists. exists x. split; [by apply list_elem_of_In | exact Hfx]. }
  congruence.
Qed.

Lemma king_raw_move_leaves_origin (fuel : nat) (b : Board) (r c : Z)
    (piece : ChessPiece) (raw : list Position) (m : Position) :
  b !! (r, c) = Some piece →
  type piece = king →
  getRawMoves fuel b r c = Some raw →
  m ∈ raw →
  (row m, col m) ≠ (r, c).
Proof.
  intros Hp Hk. unfold getRawMoves. rewrite Hp, Hk. intros H Hm.
  apply bind_Some in H as (cs & Hcs & [= <-]).
  apply elem_of_app in Hm as [Hm | Hm].
  - apply steps_elem in Hm as (_ & _ & d & Hd & ->). cbn [row col].
    unfold kingMoves in Hd.
    repeat (apply elem_of_cons in Hd as [-> | Hd]); cbn [fst snd];
      try (intros [=]; lia).
    by apply elem_of_nil in Hd.
  - apply (castlingMoves_elem _ _ _ _ _ _ m Hcs) in Hm as [_ [(-> & _) | (-> & _)]];
      cbn [row col]; intros [=]; lia.
Qed.

(** X11. A king is never offered a square next to the other king, nor a
    square a knight's jump away from a knight of the other colour: for every
    generated king move (castling included) no such piece of the board stands
    at a king offset, respectively a knight offset, from the destination. *)
Theorem king_move_avoids_contact (fuel : nat) (b : Board) (r c : Z)
    (piece : ChessPiece) (ms : list Position) (m : Position)
    (k : Z * Z) (q : ChessPiece) :
  onGrid (r, c) →
  b !! (r, c) = Some piece →
  type piece = king →
  getPossibleMoves fuel b r c = Some ms →
  m ∈ ms →
  onGrid k →
  b !! k = Some q →
  color q ≠ color piece →
  (type q = king → (k.1 - row m, k.2 - col m) ∉ kingMoves)
  ∧ (type q = knight → (k.1 - row m, k.2 - col m) ∉ knightMoves).
Proof.
  intros Hgrid Hp Hking Hms Hm Hk Hq Hcolor.
  assert (jsonClone b !! (r, c) = Some piece) as Hcl
    by (by rewrite lookup_jsonClone, decide_True).
  destruct (getPossibleMoves_raw _ _ _ _ _ _ _ Hp Hms Hm) as (raw & Hraw & Hin & Hsafe).
  pose proof (king_raw_move_leaves_origin _ _ _ _ _ _ _ Hp Hking Hraw Hin) as Hne.
  rewrite wouldBeInCheck_unfold in Hsafe.
  assert (simulated b r c (row m) (col m) !! (row m, col m) = Some piece) as Hto.
  { unfold simulated. rewrite Hcl, !lookup_setCell.
    rewrite decide_False by congruence. by rewrite decide_True. }
  assert (kingSquare (simulated b r c (row m) (col m)) (row m) (col m) (color piece)
          = (row m, col m)) as Hks.
  { unfold kingSquare. rewrite Hto. destruct piece as [t pc hm].
    cbn [type] in Hking. by subst t. }
  rewrite Hks in Hsafe. cbn [fst snd] in Hsafe.
  unfold isKingUnderAttack in Hsafe.
  destruct (contactAttack _ _ _ _) eqn:Hcontact; [discriminate|].
  unfold contactAttack in Hcontact.
  apply orb_false_iff in Hcontact as [Hcontact Hkings].
  apply orb_false_iff in Hcontact as [_ Hknights].
  destruct (decide (k = (row m, col m))) as [-> | Hkto].
  { cbn [fst snd]. rewrite !Z.sub_diag.
    split; intros _ Hoff; unfold kingMoves, knightMoves in Hoff;
      repeat (apply elem_of_cons in Hoff as [[=] | Hoff]);
      by apply elem_of_nil in Hoff. }
  assert (simulated b r c (row m) (col m) !! k = Some q) as HTk.
  { unfold simulated. rewrite Hcl, !lookup_setCell.
    rewrite decide_False by (intros <-; congruence).
    rewrite decide_False by congruence.
    by rewrite lookup_jsonClone, decide_True. }
  assert (isValidPosition k.1 k.2 = true) as Hvalid.
  { destruct Hk as [? ?]. apply isValidPosition_true. lia. }
  split; intros Ht Hoff.
  - pose proof (existsb_false_elem _ _ _ Hkings Hoff) as Hf.
    cbn [fst snd] in Hf.
    replace (row m + (k.1 - row m)) with k.1 in Hf by lia.
    replace (col m + (k.2 - col m)) with k.2 in Hf by lia.
    rewrite Hvalid in Hf. unfold hostileAt in Hf.
    destruct k as [k1 k2]. cbn [fst snd] in Hf. rewrite HTk in Hf.
    rewrite (bool_decide_eq_true_2 _ Ht), (bool_decide_eq_false_2 _ Hcolor) in Hf.
    discriminate.
  - pose proof (existsb_false_elem _ _ _ Hknights Hoff) as Hf.
    cbn [fst snd] in Hf.
    replace (row m + (k.1 - row m)) with k.1 in Hf by lia.
    replace (col m + (k.2 - col m)) with k.2 in Hf by lia.
    rewrite Hvalid in Hf. unfold hostileAt in Hf.
    destruct k as [k1 k2]. cbn [fst snd] in Hf. rewrite HTk in Hf.
    rewrite (bool_decide_eq_true_2 _ Ht), (bool_decide_eq_false_2 _ Hcolor) in Hf.
    discriminate.
Qed.

Lemma king_move_avoids_contact_witness :
  (type (mkPiece king black (Some false)) = king
   → ((0, 4).1 - row (mkPos 6 4), (0, 4).2 - col (mkPos 6 4)) ∉ kingMoves)
  ∧ (type (mkPiece king black (Some false)) = knight
     → ((0, 4).1 - row (mkPos 6 4), (0, 4).2 - col (mkPos 6 4)) ∉ knightMoves).
Proof.
  apply (king_move_avoids_contact 20 afterE4 7 4 (mkPiece king white (Some false))
           [mkPos 6 4] (mkPos 6 4) (0, 4) (mkPiece king black (Some false))).
  - split; simpl; lia.
  - vm_compute. reflexivity.
  - reflexivity.
  - vm_compute. reflexivity.
  - apply list_elem_of_In. left. reflexivity.
  - split; simpl; lia.
  - vm_compute. reflexivity.
  - discriminate.
Defined.

(** * Notation encoder

    JavaScript strings are sequences of UTF-16 code units; they are modelled
    as lists of code units, [lit] giving the units of an ASCII literal.  A
    number interpolated into a template literal is an integer here and prints
    in decimal ([pretty]). *)

Abbreviation jsString := (list Z).

Fixpoint lit (s : string) : jsString :=
  match s with
  | EmptyString => []
  | String a s' => Z.of_N (Ascii.N_of_ascii a) :: lit s'
  end.

(** [String.fromCharCode(n)] *)
Definition fromCharCode (n : Z) : jsString := [n mod 65536].

(** [s[i]] appended to a string: the code unit at [i], or the text of
    [undefined] past the end. *)
Definition charAt (s : jsString) (i : nat) : jsString :=
  match s !! i with
  | Some u => [u]
  | None => lit "undefined"
  end.

Definition positionToAlgebraic (position : Position) : jsString :=
  fromCharCode (97 + col position) ++ lit (pretty (8 - row position)).

Definition pieceSymbols (t : PieceType) : jsString :=
  match t with
  | pawn => lit ""
  | rook => lit "R"
  | knight => lit "N"
  | bishop => lit "B"
  | queen => lit "Q"
  | king => lit "K"
  end.

Definition promotionSymbols (t : PieceType) : jsString :=
  match t with
  | queen => lit "Q"
  | rook => lit "R"
  | bishop => lit "B"
  | knight => lit "N"
  | pawn => lit ""
  | king => lit ""
  end.

(** The scan of [findAmbiguousPieces] over the squares still to visit. *)
Fixpoint ambiguousScan (fuel : nat) (b : Board) (piece : ChessPiece)
    (from to : Position) (sqs : list (Z * Z)) : option (list Position) :=
  match sqs with
  | [] => Some []
  | k :: rest =>
      if bool_decide (k.1 = row from) && bool_decide (k.2 = col from)
      then ambiguousScan fuel b piece from to rest
      else
        match b !! k with
        | Some otherPiece =>
            if bool_decide (type otherPiece = type piece)
               && bool_decide (color otherPiece = color piece)
            then
              moves ← getPossibleMoves fuel b k.1 k.2;
              found ← ambiguousScan fuel b piece from to rest;
              Some (if existsb (λ move, bool_decide (row move = row to)
                                        && bool_decide (col move = col to)) moves
                    then mkPos k.1 k.2 :: found else found)
            else ambiguousScan fuel b piece from to rest
        | None => ambiguousScan fuel b piece from to rest
        end
  end.

Definition findAmbiguousPieces (fuel : nat) (b : Board) (piece : ChessPiece)
    (from to : Position) : option (list Position) :=
  ambiguousScan fuel b piece from to squares.

(** [capturedPiece !== null]: a cell of the grid is a piece or [null]; a
    column outside 0..7 reads [undefined] unless a piece was stored there,
    and [undefined !== null] holds. *)
Definition isCaptureNotation (b : Board) (to : Position) : bool :=
  bool_decide (is_Some (b !! (row to, col to)))
  || negb (bool_decide (0 ≤ col to < 8)).

(** The [#] / [+] suffix. *)
Definition checkSuffix (isCheckAfterMove isCheckmateAfterMove : bool) : jsString :=
  if isCheckmateAfterMove then lit "#"
  else if isCheckAfterMove then lit "+"
  else [].

Definition getMoveNotation (fuel : nat) (b : Board) (from to : Position)
    (isCheckAfterMove isCheckmateAfterMove : bool)
    (promotionPiece : option PieceType) : option jsString :=
  match b !! (row from, col from) with
  | None => Some (lit "")
  | Some piece =>
      let isCapture := isCaptureNotation b to in
      if bool_decide (type piece = king)
         && bool_decide (Z.abs (col from - col to) = 2)
      then Some (if col to >? col from then lit "O-O" else lit "O-O-O")
      else
        symbol ←
          (if bool_decide (type piece = pawn) then Some []
           else
             ambiguousPieces ← findAmbiguousPieces fuel b piece from to;
             Some (pieceSymbols (type piece) ++
                   match ambiguousPieces with
                   | [] => []
                   | _ :: _ =>
                       if forallb (λ p, negb (bool_decide (col p = col from)))
                                  ambiguousPieces
                       then charAt (positionToAlgebraic from) 0
                       else if forallb (λ p, negb (bool_decide (row p = row from)))
                                       ambiguousPieces
                       then charAt (positionToAlgebraic from) 1
                       else positionToAlgebraic from
                   end));
        Some (symbol
              ++ (if isCapture
                  then (if bool_decide (type piece = pawn)
                        then charAt (positionToAlgebraic from) 0 else [])
                       ++ lit "x"
                  else [])
              ++ positionToAlgebraic to
              ++ (if bool_decide (type piece = pawn)
                     && (bool_decide (row to = 0) || bool_decide (row to = 7))
                  then lit "=" ++ promotionSymbols (default queen promotionPiece)
                  else [])
              ++ checkSuffix isCheckAfterMove isCheckmateAfterMove)
  end.

#[global] Arguments getMoveNotation : simpl never.




(** X13. On the grid the name is the file letter [a]..[h] followed by the
    rank digit, rank 8 being row 0: two code units, 97 + column and
    56 - row. *)
Theorem positionToAlgebraic_grid (r c : Z) :
  onGrid (r, c) →
  positionToAlgebraic (mkPos r c) = [97 + c; 56 - r].
Proof.
  intros [Hr Hc]. cbn [fst snd] in Hr, Hc.
  unfold positionToAlgebraic, fromCharCode. cbn [row col app].
  rewrite Z.mod_small by lia. f_equal.
  assert (r = 0 ∨ r = 1 ∨ r = 2 ∨ r = 3 ∨ r = 4 ∨ r = 5 ∨ r = 6 ∨ r = 7)
    as Hrs by lia.
  destruct Hrs as [->|[->|[->|[->|[->|[->|[->| ->]]]]]]]; vm_compute; reflexivity.
Qed.

Lemma positionToAlgebraic_grid_witness :
  positionToAlgebraic (mkPos 4 4) = [97 + 4; 56 - 4].
Proof. apply (positionToAlgebraic_grid 4 4). split; simpl; lia. Defined.

(** X14. A king's move of two files is written [O-O] towards higher columns
    and [O-O-O] towards lower ones, whatever the check and mate flags: the
    castling notation never carries a [+] or [#] suffix. *)
Theorem getMoveNotation_castling (fuel : nat) (b : Board) (from to : Position)
    (isCheckAfterMove isCheckmateAfterMove : bool)
    (promotionPiece : option PieceType) (piece : ChessPiece) :
  b !! (row from, col from) = Some piece →
  type piece = king →
  Z.abs (col from - col to) = 2 →
  getMoveNotation fuel b from to isCheckAfterMove isCheckmateAfterMove promotionPiece
  = Some (if col to >? col from then lit "O-O" else lit "O-O-O").
Proof.
  intros Hp Hk Habs. unfold getMoveNotation. rewrite Hp.
  by rewrite (bool_decide_eq_true_2 _ Hk), (bool_decide_eq_true_2 _ Habs).
Qed.

Lemma getMoveNotation_castling_witness :
  getMoveNotation 0 queensideBoard (mkPos 7 4) (mkPos 7 2) true true None
  = Some (if col (mkPos 7 2) >? col (mkPos 7 4) then lit "O-O" else lit "O-O-O").
Proof.
  apply (getMoveNotation_castling 0 queensideBoard (mkPos 7 4) (mkPos 7 2) true true
           None (mkPiece king white (Some false))).
  - vm_compute. reflexivity.
  - reflexivity.
  - reflexivity.
Defined.

(** X15. For any other move of a piece, the check and mate flags only add a
    suffix to the notation obtained without them: [#] when mate is flagged,
    else [+] when check is flagged, else nothing. *)
Theorem getMoveNotation_suffix (fuel : nat) (b : Board) (from to : Position)
    (isCheckAfterMove isCheckmateAfterMove : bool)
    (promotionPiece : option PieceType) (piece : ChessPiece) :
  b !! (row from, col from) = Some piece →
  (type piece = king → Z.abs (col from - col to) ≠ 2) →
  getMoveNotation fuel b from to isCheckAfterMove isCheckmateAfterMove promotionPiece
  = (λ s, s ++ checkSuffix isCheckAfterMove isCheckmateAfterMove)
      <$> getMoveNotation fuel b from to false false promotionPiece.
Proof.
  intros Hp Hplain. unfold getMoveNotation. rewrite Hp.
  assert (bool_decide (type piece = king)
          && bool_decide (Z.abs (col from - col to) = 2) = false) as ->.
  { apply andb_false_iff. destruct (decide (type piece = king)) as [Hk | Hk].
    - right. apply bool_decide_eq_false. by apply Hplain.
    - left. by apply bool_decide_eq_false. }
  match goal with
  | |- (?sym ≫= _) = _ => destruct sym as [symbol|]; [|reflexivity]
  end.
  cbn [mbind option_bind fmap option_fmap option_map]. f_equal.
  change (checkSuffix false false) with (@nil Z).
  rewrite app_nil_r. by rewrite <- !app_assoc.
Qed.

Lemma getMoveNotation_suffix_witness :
  getMoveNotation 20 initialBoard (mkPos 7 6) (mkPos 5 5) true true None
  = (λ s, s ++ checkSuffix true true)
      <$> getMoveNotation 20 initialBoard (mkPos 7 6) (mkPos 5 5) false false None.
Proof.
  apply (getMoveNotation_suffix 20 initialBoard (mkPos 7 6) (mkPos 5 5) true true None
           (mkPiece knight white None)).
  - vm_compute. reflexivity.
  - discriminate.
Defined.

Lemma ambiguousScan_alone (fuel : nat) (b : Board) (piece : ChessPiece)
    (from to : Position) (sqs : list (Z * Z)) :
  (∀ k other, k ∈ sqs → k ≠ (row from, col from) → b !! k = Some other →
              type other = type piece → color other ≠ color piece) →
  ambiguousScan fuel b piece from to sqs = Some [].
Proof.
  induction sqs as [|k rest IH]; intros Halone; cbn [ambiguousScan]; [reflexivity|].
  assert (ambiguousScan fuel b piece from to rest = Some []) as Hrest.
  { apply IH. intros k' other Hin. apply Halone. by right. }
  destruct (bool_decide (k.1 = row from) && bool_decide (k.2 = col from)) eqn:Hskip;
    [exact Hrest|].
  destruct (b !! k) as [other|] eqn:Hother; [|exact Hrest].
  destruct (bool_decide (type other = type piece)
            && bool_decide (color other = color piece)) eqn:Hsame; [|exact Hrest].
  exfalso.
  apply andb_true_iff in Hsame as [Ht Hc].
  apply bool_decide_eq_true in Ht. apply bool_decide_eq_true in Hc.
  refine (Halone k other _ _ Hother Ht Hc); [by left|].
  intros ->. cbn [fst snd] in Hskip.
  by rewrite !bool_decide_eq_true_2 in Hskip.
Qed.

(** X16. When no other piece of the same type and colour stands on the
    grid, a piece other than a pawn is written without disambiguation and
    without consulting the generator: its letter, [x] for a capture, the
    destination square, and the check or mate suffix. *)
Theorem getMoveNotation_alone (fuel : nat) (b : Board) (from to : Position)
    (isCheckAfterMove isCheckmateAfterMove : bool)
    (promotionPiece : option PieceType) (piece : ChessPiece) :
  b !! (row from, col from) = Some piece →
  type piece ≠ pawn →
  (type piece = king → Z.abs (col from - col to) ≠ 2) →
  (∀ k other, onGrid k → k ≠ (row from, col from) → b !! k = Some other →
              type other = type piece → color other ≠ color piece) →
  getMoveNotation fuel b from to isCheckAfterMove isCheckmateAfterMove promotionPiece
  = Some (pieceSymbols (type piece)
          ++ (if isCaptureNotation b to then lit "x" else [])
          ++ positionToAlgebraic to
          ++ checkSuffix isCheckAfterMove isCheckmateAfterMove).
Proof.
  intros Hp Hpawn Hplain Halone. unfold getMoveNotation. rewrite Hp.
  assert (bool_decide (type piece = king)
          && bool_decide (Z.abs (col from - col to) = 2) = false) as ->.
  { apply andb_false_iff. destruct (decide (type piece = king)) as [Hk | Hk].
    - right. apply bool_decide_eq_false. by apply Hplain.
    - left. by apply bool_decide_eq_false. }
  rewrite (bool_decide_eq_false_2 _ Hpawn).
  unfold findAmbiguousPieces.
  rewrite ambiguousScan_alone
    by (intros k other Hin%elem_of_squares; by apply Halone).
  cbn [mbind option_bind andb app]. rewrite app_nil_r. reflexivity.
Qed.

Lemma getMoveNotation_alone_witness :
  getMoveNotation 20 afterE4 (mkPos 7 3) (mkPos 3 7) true false None
  = Some (pieceSymbols (type (mkPiece queen white None))
          ++ (if isCaptureNotation afterE4 (mkPos 3 7) then lit "x" else [])
          ++ positionToAlgebraic (mkPos 3 7)
          ++ checkSuffix true false).
Proof.
  apply (getMoveNotation_alone 20 afterE4 (mkPos 7 3) (mkPos 3 7) true false None
           (mkPiece queen white None)).
  - vm_compute. reflexivity.
  - discriminate.
  - discriminate.
  - assert (forallb (λ k, match afterE4 !! k with
                          | Some other =>
                              bool_decide (k = (7, 3))
                              || negb (bool_decide (type other = queen))
                              || negb (bool_decide (color other = white))
                          | None => true
                          end) squares = true) as Hall
      by (vm_compute; reflexivity).
    intros k other Hk%elem_of_squares%list_elem_of_In Hne Hother Ht Hc.
    pose proof (proj1 (forallb_forall _ _) Hall k Hk) as Hf.
    destruct k as [k1 k2]. rewrite Hother in Hf.
    rewrite (bool_decide_eq_false_2 _ Hne), (bool_decide_eq_true_2 _ Ht),
      (bool_decide_eq_true_2 _ Hc) in Hf.
    discriminate.
Defined.

(** * Search engine

    Scores are JavaScript numbers; as in the evaluator their arithmetic and
    comparisons stay abstract ([gtb] is [>], [ltb] is [<], [leb] is [<=],
    [maxNum] and [minNum] are [Math.max] and [Math.min], [negInf] and [posInf]
    the two infinities).  [minimax] is only called with the depths 1, 2, 3
    that [getAIMove] selects, and recurses on [depth - 1] down to 0, so its
    depth is a natural number. *)

Abbreviation Move := (Position * Position)%type.

Definition opposite (c : PieceColor) : PieceColor :=
  match c with white => black | black => white end.

(** The double loop that collects every generated move of a colour, in
    row-major order of the origin squares. *)
Fixpoint collectMoves (fuel : nat) (b : Board) (c : PieceColor)
    (sqs : list (Z * Z)) : option (list Move) :=
  match sqs with
  | [] => Some []
  | k :: rest =>
      match b !! k with
      | Some piece =>
          if bool_decide (color piece = c) then
            possibleMoves ← getPossibleMoves fuel b k.1 k.2;
            others ← collectMoves fuel b c rest;
            Some (map (λ move, (mkPos k.1 k.2, move)) possibleMoves ++ others)
          else collectMoves fuel b c rest
      | None => collectMoves fuel b c rest
      end
  end.

Inductive Difficulty := easy | medium | hard.

#[global] Instance Difficulty_eq_dec : EqDecision Difficulty.
Proof. solve_decision. Defined.

Definition searchDepth (difficulty : Difficulty) : nat :=
  match difficulty with easy => 1 | medium => 2 | hard => 3 end.

(** [piece?.type === "pawn" && ((color === "white" && to.row === 0)
     || (color === "black" && to.row === 7))] for the piece on the origin. *)
Definition isPromotionMove (b : Board) (c : PieceColor) (move : Move) : bool :=
  match b !! (row move.1, col move.1) with
  | Some piece =>
      bool_decide (type piece = pawn)
      && ((bool_decide (c = white) && bool_decide (row move.2 = 0))
          || (bool_decide (c = black) && bool_decide (row move.2 = 7)))
  | None => false
  end.

Section Search.
Context {num : Type}.
Variables (ofInt ofTenths : Z → num) (add sub : num → num → num).
Variables (gtb ltb leb : num → num → bool) (maxNum minNum : num → num → num).
Variables (negInf posInf : num).

(** The maximizing loop over the candidate moves, [rec] being the recursive
    call on the board after a move. *)
Fixpoint maximize (rec : Board → num → num → option (num * option Move))
    (b : Board) (moves : list Move) (alpha beta maxScore : num)
    (bestMove : option Move) : option (num * option Move) :=
  match moves with
  | [] => Some (maxScore, bestMove)
  | move :: rest =>
      let newBoard :=
        movePiece b (row move.1) (col move.1) (row move.2) (col move.2) None in
      result ← rec newBoard alpha beta;
      let better := gtb result.1 maxScore in
      let maxScore := if better then result.1 else maxScore in
      let bestMove := if better then Some move else bestMove in
      let alpha := maxNum alpha maxScore in
      if leb beta alpha then Some (maxScore, bestMove)
      else maximize rec b rest alpha beta maxScore bestMove
  end.

Fixpoint minimize (rec : Board → num → num → option (num * option Move))
    (b : Board) (moves : list Move) (alpha beta minScore : num)
    (bestMove : option Move) : option (num * option Move) :=
  match moves with
  | [] => Some (minScore, bestMove)
  | move :: rest =>
      let newBoard :=
        movePiece b (row move.1) (col move.1) (row move.2) (col move.2) None in
      result ← rec newBoard alpha beta;
      let better := ltb result.1 minScore in
      let minScore := if better then result.1 else minScore in
      let bestMove := if better then Some move else bestMove in
      let beta := minNum beta minScore in
      if leb beta alpha then Some (minScore, bestMove)
      else minimize rec b rest alpha beta minScore bestMove
  end.

Fixpoint minimax (depth : nat) (fuel : nat) (b : Board) (alpha beta : num)
    (isMaximizing : bool) (c : PieceColor) : option (num * option Move) :=
  let static :=
    score ← evaluateBoard ofInt ofTenths add sub fuel b;
    Some (score, None) in
  match depth with
  | O => static
  | S depth' =>
      whiteMated ← isCheckmate fuel b white;
      if whiteMated : bool then static else
      blackMated ← isCheckmate fuel b black;
      if blackMated : bool then static else
      moves ← collectMoves fuel b c squares;
      match moves with
      | [] => static
      | _ :: _ =>
          if isMaximizing
          then maximize (λ b' alpha' beta',
                           minimax depth' fuel b' alpha' beta' false (opposite c))
                        b moves alpha beta negInf None
          else minimize (λ b' alpha' beta',
                           minimax depth' fuel b' alpha' beta' true (opposite c))
                        b moves alpha beta posInf None
      end
  end.

(** [getAIMove].  Its two draws of [Math.random()] are inputs of the model:
    [lucky] is the outcome of [Math.random() < 0.3], and
    [Math.floor(Math.random() * n)], some index below [n], is [pick mod n].
    The result is [null] ([None]) or a move with its promotion flag. *)
Definition getAIMove (fuel : nat) (b : Board) (c : PieceColor)
    (difficulty : Difficulty) (lucky : bool) (pick : nat)
    : option (option (Move * bool)) :=
  randomMove ←
    (if bool_decide (difficulty = easy) && lucky then
       allMoves ← collectMoves fuel b c squares;
       Some (match allMoves with
             | [] => None
             | _ :: _ =>
                 (λ move, (move, isPromotionMove b c move))
                   <$> allMoves !! (pick mod length allMoves)%nat
             end)
     else Some None);
  match randomMove with
  | Some chosen => Some (Some chosen)
  | None =>
      result ← minimax (searchDepth difficulty) fuel b negInf posInf
                 (bool_decide (c = white)) c;
      Some (match result.2 with
            | Some move => Some (move, isPromotionMove b c move)
            | None => None
            end)
  end.
End Search.

(** A move of the colour that the generator offers on the board. *)
Definition generatedMove (fuel : nat) (b : Board) (c : PieceColor) (move : Move) : Prop :=
  ∃ piece ms,
    onGrid (row move.1, col move.1)
    ∧ b !! (row move.1, col move.1) = Some piece
    ∧ color piece = c
    ∧ getPossibleMoves fuel b (row move.1) (col move.1) = Some ms
    ∧ move.2 ∈ ms.

(** Both kings walled in behind their own pawns; only the pawns on g2, h2,
    g7 and h7 can move. *)
Definition lockedKings : Board :=
  place (7, 7) king white (Some true)
    (place (7, 6) pawn white (Some true)
      (place (6, 6) pawn white (Some false)
        (place (6, 7) pawn white (Some false)
  (place (0, 7) king black (Some true)
    (place (0, 6) pawn black (Some true)
      (place (1, 6) pawn black (Some false)
        (place (1, 7) pawn black (Some false) ∅))))))).

#[global] Arguments getAIMove : simpl never.

Lemma collectMoves_elem (fuel : nat) (b : Board) (c : PieceColor)
    (sqs : list (Z * Z)) (moves : list Move) (move : Move) :
  collectMoves fuel b c sqs = Some moves →
  move ∈ moves →
  ∃ piece ms,
    (row move.1, col move.1) ∈ sqs
    ∧ b !! (row move.1, col move.1) = Some piece
    ∧ color piece = c
    ∧ getPossibleMoves fuel b (row move.1) (col move.1) = Some ms
    ∧ move.2 ∈ ms.
Proof.
  revert moves. induction sqs as [|k rest IH]; intros moves; cbn [collectMoves].
  { intros [= <-] Hin. by apply elem_of_nil in Hin. }
  assert (∀ moves', collectMoves fuel b c rest = Some moves' → move ∈ moves' →
            ∃ piece ms,
              (row move.1, col move.1) ∈ k :: rest
              ∧ b !! (row move.1, col move.1) = Some piece
              ∧ color piece = c
              ∧ getPossibleMoves fuel b (row move.1) (col move.1) = Some ms
              ∧ move.2 ∈ ms) as IH'.
  { intros moves' H Hin.
    destruct (IH moves' H Hin) as (piece & ms & Hsq & Hrest).
    exists piece, ms. split; [by right | exact Hrest]. }
  destruct (b !! k) as [piece|] eqn:Hp; [|apply IH'].
  case_bool_decide as Hc; [|apply IH'].
  intros H Hin.
  apply bind_Some in H as (possible & Hposs & H).
  apply bind_Some in H as (others & Hothers & [= <-]).
  apply elem_of_app in Hin as [Hin | Hin]; [|by eapply IH'].
  apply list_elem_of_fmap in Hin as (to & -> & Hto).
  destruct k as [r c']. cbn [fst snd row col] in *.
  exists piece, possible. split; [by left|]. done.
Qed.

Lemma maximize_move {num : Type} (gtb leb : num → num → bool)
    (maxNum : num → num → num)
    (rec : Board → num → num → option (num * option Move))
    (b : Board) (moves : list Move) (alpha beta maxScore : num)
    (bestMove : option Move) (score : num) (move : Move) :
  maximize gtb leb maxNum rec b moves alpha beta maxScore bestMove
  = Some (score, Some move) →
  move ∈ moves ∨ bestMove = Some move.
Proof.
  revert alpha maxScore bestMove.
  induction moves as [|mv rest IH]; intros alpha maxScore bestMove; cbn [maximize].
  { intros [= _ ->]. by right. }
  intros H. apply bind_Some in H as (result & _ & H). cbv zeta in H.
  destruct (gtb result.1 maxScore).
  - destruct (leb beta _).
    + injection H as _ ->. left. by left.
    + apply IH in H as [Hin | [= ->]]; left; [by right | by left].
  - destruct (leb beta _).
    + injection H as _ ->. by right.
    + apply IH in H as [Hin | ->]; [left; by right | by right].
Qed.

Lemma minimize_move {num : Type} (ltb leb : num → num → bool)
    (minNum : num → num → num)
    (rec : Board → num → num → option (num * option Move))
    (b : Board) (moves : list Move) (alpha beta minScore : num)
    (bestMove : option Move) (score : num) (move : Move) :
  minimize ltb leb minNum rec b moves alpha beta minScore bestMove
  = Some (score, Some move) →
  move ∈ moves ∨ bestMove = Some move.
Proof.
  revert beta minScore bestMove.
  induction moves as [|mv rest IH]; intros beta minScore bestMove; cbn [minimize].
  { intros [= _ ->]. by right. }
  intros H. apply bind_Some in H as (result & _ & H). cbv zeta in H.
  destruct (ltb result.1 minScore).
  - destruct (leb _ alpha).
    + injection H as _ ->. left. by left.
    + apply IH in H as [Hin | [= ->]]; left; [by right | by left].
  - destruct (leb _ alpha).
    + injection H as _ ->. by right.
    + apply IH in H as [Hin | ->]; [left; by right | by right].
Qed.

Lemma collectMoves_generated (fuel : nat) (b : Board) (c : PieceColor)
    (moves : list Move) (move : Move) :
  collectMoves fuel b c squares = Some moves →
  move ∈ moves →
  generatedMove fuel b c move.
Proof.
  intros H Hin.
  destruct (collectMoves_elem _ _ _ _ _ _ H Hin) as (piece & ms & Hsq & Hrest).
  exists piece, ms. split; [by apply elem_of_squares | exact Hrest].
Qed.

Lemma minimax_move_collected {num : Type} (ofInt ofTenths : Z → num)
    (add sub : num → num → num) (gtb ltb leb : num → num → bool)
    (maxNum minNum : num → num → num) (negInf posInf : num)
    (depth fuel : nat) (b : Board) (alpha beta : num) (isMaximizing : bool)
    (c : PieceColor) (score : num) (move : Move) :
  minimax ofInt ofTenths add sub gtb ltb leb maxNum minNum negInf posInf
          depth fuel b alpha beta isMaximizing c = Some (score, Some move) →
  ∃ moves, collectMoves fuel b c squares = Some moves ∧ move ∈ moves.
Proof.
  assert (∀ r : option (num * option Move),
            (s ← evaluateBoard ofInt ofTenths add sub fuel b; Some (s, None)) = r →
            r ≠ Some (score, Some move)) as Hstatic.
  { intros r <- H. apply bind_Some in H as (s & _ & [=]). }
  destruct depth as [|depth]; cbn [minimax]; intros H.
  { by destruct (Hstatic _ eq_refl). }
  apply bind_Some in H as (whiteMated & _ & H).
  destruct whiteMated; [by destruct (Hstatic _ eq_refl)|].
  apply bind_Some in H as (blackMated & _ & H).
  destruct blackMated; [by destruct (Hstatic _ eq_refl)|].
  apply bind_Some in H as (moves & Hmoves & H).
  destruct moves as [|mv rest] eqn:Hm; [by destruct (Hstatic _ eq_refl)|].
  rewrite <- Hm in *. clear Hm.
  exists moves. split; [exact Hmoves|].
  destruct isMaximizing.
  - by apply maximize_move in H as [Hin | [=]].
  - by apply minimize_move in H as [Hin | [=]].
Qed.

(** X17. Whatever the depth, the bounds and the side, a move returned by the
    search is one the generator offers to that side on that board: a piece
    of the colour stands on its origin, a square of the grid, and its
    destination is in the generator's list for that origin. *)
Theorem minimax_move_generated {num : Type} (ofInt ofTenths : Z → num)
    (add sub : num → num → num) (gtb ltb leb : num → num → bool)
    (maxNum minNum : num → num → num) (negInf posInf : num)
    (depth fuel : nat) (b : Board) (alpha beta : num) (isMaximizing : bool)
    (c : PieceColor) (score : num) (move : Move) :
  minimax ofInt ofTenths add sub gtb ltb leb maxNum minNum negInf posInf
          depth fuel b alpha beta isMaximizing c = Some (score, Some move) →
  generatedMove fuel b c move.
Proof.
  intros H.
  apply minimax_move_collected in H as (moves & Hmoves & Hin).
  by apply (collectMoves_generated fuel b c moves).
Qed.

Lemma minimax_move_generated_witness :
  generatedMove 20 lockedKings black (mkPos 1 6, mkPos 2 6).
Proof.
  apply (minimax_move_generated (Z.mul 10) (λ k, k) Z.add Z.sub Z.gtb Z.ltb Z.leb
           Z.max Z.min (-1000000) 1000000 2 20 lockedKings (-1000000) 1000000
           false black 0 (mkPos 1 6, mkPos 2 6)).
  vm_compute. reflexivity.
Defined.

(** X18. A move returned by [getAIMove], whether drawn at random on the easy
    setting or found by the search, is one the generator offers to the colour
    on the board, and its promotion flag is set exactly when the piece on its
    origin is a pawn and the destination row is the last one for the colour
    (row 0 for White, row 7 for Black). *)
Theorem getAIMove_generated {num : Type} (ofInt ofTenths : Z → num)
    (add sub : num → num → num) (gtb ltb leb : num → num → bool)
    (maxNum minNum : num → num → num) (negInf posInf : num)
    (fuel : nat) (b : Board) (c : PieceColor) (difficulty : Difficulty)
    (lucky : bool) (pick : nat) (move : Move) (promotion : bool) :
  getAIMove ofInt ofTenths add sub gtb ltb leb maxNum minNum negInf posInf
            fuel b c difficulty lucky pick = Some (Some (move, promotion)) →
  generatedMove fuel b c move
  ∧ promotion = isPromotionMove b c move.
Proof.
  unfold getAIMove. intros H.
  apply bind_Some in H as (randomMove & Hrandom & H).
  destruct randomMove as [chosen|].
  - injection H as ->.
    destruct (bool_decide (difficulty = easy) && lucky); [|discriminate].
    apply bind_Some in Hrandom as (allMoves & Hall & Hrandom).
    destruct allMoves as [|mv rest] eqn:Hm; [discriminate|].
    rewrite <- Hm in *. clear Hm.
    injection Hrandom as Hrandom.
    apply fmap_Some in Hrandom as (move' & Hlookup & Heq).
    injection Heq as -> ->.
    split; [|reflexivity].
    apply (collectMoves_generated fuel b c allMoves move' Hall).
    by apply list_elem_of_lookup_2 in Hlookup.
  - apply bind_Some in H as ([score best] & Hsearch & H).
    cbn [snd] in H. destruct best as [move'|]; [|discriminate].
    injection H as <- <-. split; [|reflexivity].
    apply minimax_move_collected in Hsearch as (moves & Hmoves & Hin).
    by apply (collectMoves_generated fuel b c moves).
Qed.

Lemma getAIMove_generated_witness :
  generatedMove 20 lockedKings black (mkPos 1 7, mkPos 3 7)
  ∧ false = isPromotionMove lockedKings black (mkPos 1 7, mkPos 3 7).
Proof.
  apply (getAIMove_generated (Z.mul 10) (λ k, k) Z.add Z.sub Z.gtb Z.ltb Z.leb
           Z.max Z.min (-1000000) 1000000 20 lockedKings black easy true 7).
  vm_compute. reflexivity.
Defined.

Lemma collectMoves_none (fuel : nat) (b : Board) (c : PieceColor) (sqs : list (Z * Z)) :
  hasLegalMove fuel b c sqs = Some false →
  collectMoves fuel b c sqs = Some [].
Proof.
  induction sqs as [|k rest IH]; cbn [hasLegalMove collectMoves]; [reflexivity|].
  destruct (b !! k) as [piece|]; [|exact IH].
  destruct (bool_decide (color piece = c)); [|exact IH].
  intros H. apply bind_Some in H as (ms & Hms & H).
  destruct ms as [|m ms]; [|discriminate].
  apply bind_Some. exists []. split; [exact Hms|].
  apply bind_Some. exists []. split; [by apply IH | reflexivity].
Qed.

(** X19. A checkmated side gets no move from [getAIMove]: when [isCheckmate]
    is true for the colour (and, for Black, returns false for White, which
    the search tests first), the result is [null] on every difficulty setting
    and for every outcome of the random draws. *)
Theorem getAIMove_checkmated {num : Type} (ofInt ofTenths : Z → num)
    (add sub : num → num → num) (gtb ltb leb : num → num → bool)
    (maxNum minNum : num → num → num) (negInf posInf : num)
    (fuel : nat) (b : Board) (c : PieceColor) (difficulty : Difficulty)
    (lucky : bool) (pick : nat) :
  isCheckmate fuel b c = Some true →
  (c = black → isCheckmate fuel b white = Some false) →
  getAIMove ofInt ofTenths add sub gtb ltb leb maxNum minNum negInf posInf
            fuel b c difficulty lucky pick = Some None.
Proof.
  intros Hmate Hwhite.
  assert (collectMoves fuel b c squares = Some []) as Hnone.
  { apply collectMoves_none. unfold isCheckmate in Hmate.
    apply bind_Some in Hmate as (chk & _ & Hmate).
    destruct chk; [|discriminate].
    apply bind_Some in Hmate as (any & Hany & Hmate).
    by destruct any. }
  assert (minimax ofInt ofTenths add sub gtb ltb leb maxNum minNum negInf posInf
            (searchDepth difficulty) fuel b negInf posInf (bool_decide (c = white)) c
          = Some (ofInt (match c with white => -1000 | black => 1000 end), None))
    as Hsearch.
  { assert (evaluateBoard ofInt ofTenths add sub fuel b
            = Some (ofInt (match c with white => -1000 | black => 1000 end))) as Heval.
    { unfold evaluateBoard. destruct c.
      - by rewrite Hmate.
      - by rewrite (Hwhite eq_refl), Hmate. }
    assert (∃ d, searchDepth difficulty = S d) as [d ->]
      by (destruct difficulty; by eexists).
    cbn [minimax]. destruct c.
    - rewrite Hmate. cbn [mbind option_bind]. by rewrite Heval.
    - rewrite (Hwhite eq_refl). cbn [mbind option_bind].
      rewrite Hmate. cbn [mbind option_bind]. by rewrite Heval. }
  unfold getAIMove. rewrite Hsearch.
  destruct (bool_decide (difficulty = easy) && lucky); [|reflexivity].
  by rewrite Hnone.
Qed.

Lemma getAIMove_checkmated_witness :
  getAIMove (Z.mul 10) (λ k, k) Z.add Z.sub Z.gtb Z.ltb Z.leb Z.max Z.min
            (-1000000) 1000000 20 blackMate black easy true 3 = Some None.
Proof.
  apply (getAIMove_checkmated (Z.mul 10) (λ k, k) Z.add Z.sub Z.gtb Z.ltb Z.leb
           Z.max Z.min (-1000000) 1000000 20 blackMate black easy true 3).
  - vm_compute. reflexivity.
  - intros _. vm_compute. reflexivity.
Defined.

(** * Castling short *)

Lemma attackRays_all_false (fuel : nat) (b : Board) (kingColor : PieceColor)
    (kingRow kingCol : Z) (dirs : list (Z * Z * list PieceType)) :
  (∀ dr dc pieces, (dr, dc, pieces) ∈ dirs →
     attackRay fuel b kingColor pieces (kingRow + dr) (kingCol + dc) dr dc = Some false) →
  attackRays fuel b kingColor kingRow kingCol dirs = Some false.
Proof.
  induction dirs as [|[[dr dc] pieces] rest IH]; cbn [attackRays]; intros H;
    [reflexivity|].
  rewrite (H dr dc pieces) by (by left). cbn [mbind option_bind].
  apply IH. intros dr' dc' pieces' Hin. apply H. by right.
Qed.

(** A ray that moves away from row [r0] only reads cells of other rows. *)
Lemma attackRay_below (b1 b2 : Board) (kingColor : PieceColor)
    (pieces : list PieceType) (r0 dc : Z) (fuel : nat) (r c : Z) :
  (∀ k, r0 < k.1 → b1 !! k = b2 !! k) →
  r0 < r →
  attackRay fuel b1 kingColor pieces r c 1 dc = attackRay fuel b2 kingColor pieces r c 1 dc.
Proof.
  intros Hagree. revert r c. induction fuel as [|fuel IH]; intros r c Hr; [reflexivity|].
  cbn [attackRay]. destruct (isValidPosition r c); [|reflexivity].
  rewrite (Hagree (r, c)) by exact Hr.
  destruct (b2 !! (r, c)); [reflexivity|]. apply IH. lia.
Qed.

Lemma attackRay_above (b1 b2 : Board) (kingColor : PieceColor)
    (pieces : list PieceType) (r0 dc : Z) (fuel : nat) (r c : Z) :
  (∀ k, k.1 < r0 → b1 !! k = b2 !! k) →
  r < r0 →
  attackRay fuel b1 kingColor pieces r c (-1) dc
  = attackRay fuel b2 kingColor pieces r c (-1) dc.
Proof.
  intros Hagree. revert r c. induction fuel as [|fuel IH]; intros r c Hr; [reflexivity|].
  cbn [attackRay]. destruct (isValidPosition r c); [|reflexivity].
  rewrite (Hagree (r, c)) by exact Hr.
  destruct (b2 !! (r, c)); [reflexivity|]. apply IH. lia.
Qed.

(** The castled position as the attack detector sees it from g-file: the
    simulation's board with the rook taken from column 7 to column 5. *)
Definition rookShifted (t : Board) (r : Z) (q : ChessPiece) : Board :=
  setCell (setCell t (r, 5) (Some q)) (r, 7) None.

Lemma rookShifted_safe (fuel : nat) (t : Board) (r : Z) (q : ChessPiece)
    (c : PieceColor) :
  0 ≤ r < 8 →
  t !! (r, 5) = None →
  t !! (r, 7) = Some q →
  color q = c →
  isKingUnderAttack fuel t r 6 c = Some false →
  isKingUnderAttack fuel (rookShifted t r q) r 6 c = Some false.
Proof.
  intros Hr H5 H7 Hq Hsafe.
  assert (∀ x y, (x, y) ≠ (r, 5) → (x, y) ≠ (r, 7) →
                 rookShifted t r q !! (x, y) = t !! (x, y)) as Hother.
  { intros x y Hn5 Hn7. unfold rookShifted. rewrite !lookup_setCell.
    rewrite decide_False by congruence. by rewrite decide_False by congruence. }
  assert (rookShifted t r q !! (r, 5) = Some q) as H5'.
  { unfold rookShifted. rewrite !lookup_setCell.
    rewrite decide_False by (intros [=]). by rewrite decide_True. }
  assert (rookShifted t r q !! (r, 7) = None) as H7'.
  { unfold rookShifted. rewrite !lookup_setCell. by rewrite decide_True. }
  assert (∀ x y ty, hostileAt (rookShifted t r q) x y ty c = hostileAt t x y ty c)
    as Hhostile.
  { intros x y ty. unfold hostileAt.
    destruct (decide ((x, y) = (r, 5))) as [[= -> ->] | Hn5].
    { rewrite H5', H5. rewrite (bool_decide_eq_true_2 _ Hq). cbn.
      by rewrite andb_false_r. }
    destruct (decide ((x, y) = (r, 7))) as [[= -> ->] | Hn7].
    { rewrite H7', H7. rewrite (bool_decide_eq_true_2 _ Hq). cbn.
      by rewrite andb_false_r. }
    by rewrite Hother. }
  unfold isKingUnderAttack in *.
  assert (contactAttack (rookShifted t r q) r 6 c = contactAttack t r 6 c) as ->.
  { unfold contactAttack. rewrite !Hhostile.
    rewrite (existsb_agree _ (λ d, isValidPosition (r + d.1) (6 + d.2)
               && hostileAt t (r + d.1) (6 + d.2) knight c) knightMoves)
      by (intros d; by rewrite Hhostile).
    rewrite (existsb_agree _ (λ d, isValidPosition (r + d.1) (6 + d.2)
               && hostileAt t (r + d.1) (6 + d.2) king c) kingMoves)
      by (intros d; by rewrite Hhostile).
    reflexivity. }
  destruct (contactAttack t r 6 c); [discriminate|].
  pose proof (attackRays_false _ _ _ _ _ _ Hsafe) as Hrays.
  assert (∃ fuel', fuel = S (S fuel')) as [fuel' ->].
  { pose proof (Hrays 0 (-1) [rook; queen]) as Hleft.
    destruct fuel as [|[|fuel']]; [| |by eexists]; exfalso.
    - cbn in Hleft. discriminate Hleft.
      unfold attackDirections, rookDirections. cbn [map app].
      apply list_elem_of_In. right. right. left. reflexivity.
    - change (6 + -1) with 5 in Hleft. cbn [attackRay] in Hleft.
      rewrite Z.add_0_r in Hleft.
      rewrite (proj2 (isValidPosition_true r 5)), H5 in Hleft by lia.
      discriminate Hleft.
      unfold attackDirections, rookDirections. cbn [map app].
      apply list_elem_of_In. right. right. left. reflexivity. }
  apply attackRays_all_false. intros dr dc pieces Hin.
  pose proof (Hrays dr dc pieces Hin) as Hray.
  unfold attackDirections, rookDirections, bishopDirections in Hin.
  cbn [map app] in Hin.
  assert (∀ k : Z * Z, r < k.1 → rookShifted t r q !! k = t !! k) as Hbelow.
  { intros [x y] Hx. cbn [fst] in Hx. apply Hother; intros [=]; lia. }
  assert (∀ k : Z * Z, k.1 < r → rookShifted t r q !! k = t !! k) as Habove.
  { intros [x y] Hx. cbn [fst] in Hx. apply Hother; intros [=]; lia. }
  repeat (apply elem_of_cons in Hin as [[= -> -> ->] | Hin]).
  - rewrite (attackRay_above _ _ _ _ r _ _ _ _ Habove) by lia. exact Hray.
  - rewrite (attackRay_below _ _ _ _ r _ _ _ _ Hbelow) by lia. exact Hray.
  - change (6 + -1) with 5. rewrite Z.add_0_r. cbn [attackRay].
    rewrite (proj2 (isValidPosition_true r 5)), H5' by lia.
    by rewrite (bool_decide_eq_true_2 _ Hq).
  - change (6 + 1) with 7. rewrite Z.add_0_r. cbn [attackRay].
    rewrite (proj2 (isValidPosition_true r 7)), H7' by lia.
    rewrite Z.add_0_r. change (7 + 1) with 8.
    assert (isValidPosition r 8 = false) as -> by (unfold isValidPosition; lia).
    reflexivity.
  - rewrite (attackRay_above _ _ _ _ r _ _ _ _ Habove) by lia. exact Hray.
  - rewrite (attackRay_above _ _ _ _ r _ _ _ _ Habove) by lia. exact Hray.
  - rewrite (attackRay_below _ _ _ _ r _ _ _ _ Hbelow) by lia. exact Hray.
  - rewrite (attackRay_below _ _ _ _ r _ _ _ _ Hbelow) by lia. exact Hray.
  - by apply elem_of_nil in Hin.
Qed.

(** X20. Castling short is safe for the executor's board too: when the
    generator offers the king on file e the square on file g, and that king
    is the only king of its colour on the grid, [isCheck] answers false on the
    board [movePiece] returns (king on g, rook on f), with the budget with
    which the generator returned. *)
Theorem castling_short_keeps_king_safe (fuel : nat) (b : Board) (r : Z)
    (piece : ChessPiece) (ms : list Position)
    (promotionPiece : option PieceType) :
  0 ≤ r < 8 →
  b !! (r, 4) = Some piece →
  type piece = king →
  getPossibleMoves fuel b r 4 = Some ms →
  mkPos r 6 ∈ ms →
  (∀ k, onGrid k → isKingOf b (color piece) k = true → k = (r, 4)) →
  isCheck fuel (movePiece b r 4 r 6 promotionPiece) (color piece) = Some false.
Proof.
  intros Hr Hp Hking Hms Hm Huniq.
  assert (∀ y, 0 ≤ y < 8 → jsonClone b !! (r, y) = b !! (r, y)) as Hrow.
  { intros y Hy. rewrite lookup_jsonClone. by rewrite decide_True by (split; simpl; lia). }
  destruct (castling_offered_iff fuel b r 4 piece ms Hp Hking Hms) as [Hk _].
  change (4 + 2) with 6 in Hk.
  apply Hk in Hm as (_ & Hrook & H5 & H6 & _ & _ & Hsafe). clear Hk.
  unfold castlingRook in Hrook.
  destruct (b !! (r, 7)) as [q|] eqn:H7; [|discriminate].
  apply andb_true_iff in Hrook as [Hrook _].
  apply andb_true_iff in Hrook as [Htq Hq].
  apply bool_decide_eq_true in Htq. apply bool_decide_eq_true in Hq.
  rewrite wouldBeInCheck_unfold in Hsafe.
  set (T := simulated b r 4 r 6) in *.
  assert (∀ k, T !! k = if decide ((r, 4) = k) then None
                        else if decide ((r, 6) = k) then Some piece
                        else jsonClone b !! k) as HT.
  { intros k. subst T. unfold simulated. rewrite (Hrow 4), Hp by lia.
    by rewrite !lookup_setCell. }
  assert (kingSquare T r 6 (color piece) = (r, 6)) as Hks.
  { unfold kingSquare. rewrite HT.
    rewrite decide_False by (intros [=]). rewrite decide_True by reflexivity.
    destruct piece as [t pc hm]. cbn [type] in Hking. by subst t. }
  rewrite Hks in Hsafe. cbn [fst snd] in Hsafe.
  assert (T !! (r, 5) = None) as HT5.
  { rewrite HT. rewrite !decide_False by (intros [=]). by rewrite Hrow by lia. }
  assert (T !! (r, 7) = Some q) as HT7.
  { rewrite HT. rewrite !decide_False by (intros [=]). by rewrite Hrow by lia. }
  pose proof (rookShifted_safe fuel T r q (color piece) Hr HT5 HT7 Hq Hsafe) as Hshift.
  set (moved := flagged (promoted piece r promotionPiece)).
  assert (type moved = king ∧ color moved = color piece) as [Hmk Hmc].
  { subst moved. rewrite flagged_type, flagged_color, promoted_color.
    split; [|reflexivity]. unfold promoted. by rewrite Hking. }
  assert (∀ k, movePiece b r 4 r 6 promotionPiece !! k
               = if decide ((r, 4) = k) then None
                 else if decide ((r, 6) = k) then Some moved
                 else if decide ((r, 7) = k) then None
                 else if decide ((r, 5) = k) then Some q
                 else jsonClone b !! k) as HR.
  { intros k. unfold movePiece. rewrite (Hrow 4), Hp by lia.
    rewrite Hking. cbn [bool_decide decide_rel]. 
    rewrite (bool_decide_eq_true_2 (king = king)) by reflexivity.
    rewrite (bool_decide_eq_true_2 (Z.abs (4 - 6) = 2)) by reflexivity.
    cbn [andb]. change (6 >? 4) with true. cbv iota.
    rewrite (bool_decide_eq_false_2 ((r, 7) = (r, 4))) by (intros [=]).
    rewrite (Hrow 7), H7 by lia.
    by rewrite !lookup_setCell. }
  assert (attackAlike (color piece) (rookShifted T r q)
            (movePiece b r 4 r 6 promotionPiece)) as Halike.
  { intros k. rewrite HR. unfold rookShifted. rewrite !lookup_setCell, HT.
    destruct (decide ((r, 4) = k)) as [<- | H4].
    { rewrite !decide_False by (intros [=]). constructor. }
    destruct (decide ((r, 6) = k)) as [<- | H6'].
    { rewrite !decide_False by (intros [=]). constructor.
      split; [by rewrite Hmc|]. split; [by intros []|]. by rewrite Hmk, Hking. }
    destruct (decide ((r, 7) = k)) as [<- | H7']; [constructor|].
    destruct (decide ((r, 5) = k)) as [<- | H5'].
    { constructor. split; [reflexivity|]. split; [by intros _ | reflexivity]. }
    destruct (jsonClone b !! k) as [p|]; constructor.
    split; [reflexivity|]. split; [by intros _ | reflexivity]. }
  unfold isCheck.
  rewrite <- (isKingUnderAttack_alike _ _ _ fuel _ _ Halike).
  replace (findKing (movePiece b r 4 r 6 promotionPiece) (color piece)) with (r, 6);
    [exact Hshift|].
  symmetry. apply findKing_unique.
  - split; simpl; lia.
  - unfold isKingOf. rewrite HR.
    rewrite decide_False by (intros [=]). rewrite decide_True by reflexivity.
    by rewrite Hmk, Hmc, !bool_decide_eq_true_2.
  - intros k' Hon' Hk'. unfold isKingOf in Hk'. rewrite HR in Hk'.
    destruct (decide ((r, 4) = k')) as [<- | H4]; [discriminate|].
    destruct (decide ((r, 6) = k')) as [<- | H6']; [reflexivity|].
    destruct (decide ((r, 7) = k')) as [<- | H7']; [discriminate|].
    destruct (decide ((r, 5) = k')) as [<- | H5'].
    { rewrite (bool_decide_eq_false_2 (type q = king)) in Hk'
        by (rewrite Htq; discriminate).
      discriminate. }
    rewrite lookup_jsonClone, decide_True in Hk' by done.
    destruct H4. symmetry. by apply Huniq.
Qed.

(** The initial position with f1 and g1 cleared: White may castle short. *)
Definition kingsideBoard : Board := delete (7, 5) (delete (7, 6) initialBoard).

Lemma castling_short_keeps_king_safe_witness :
  isCheck 20 (movePiece kingsideBoard 7 4 7 6 None)
    (color (mkPiece king white (Some false))) = Some false.
Proof.
  apply (castling_short_keeps_king_safe 20 kingsideBoard 7
           (mkPiece king white (Some false)) [mkPos 7 5; mkPos 7 6] None).
  - lia.
  - vm_compute. reflexivity.
  - reflexivity.
  - vm_compute. reflexivity.
  - apply list_elem_of_In. right. left. reflexivity.
  - assert (Forall (λ k, isKingOf kingsideBoard white k = true → k = (7, 4)) squares)
      as Hall by (apply (bool_decide_unpack _); vm_compute; exact I).
    intros k Hk%elem_of_squares.
    exact (proj1 (Forall_forall _ _) Hall k Hk).
Defined.
